(** * Orchestration core of the file data extraction tool (src/main.py)

    A shallow embedding of [extract_single_file], [extract_directory] and
    [main], together with the parts of Python's [pathlib] and [dict] they
    rely on, and the properties of the extraction orchestration.

    Conventions.
    - A Python [str] is a [string]; [str.lower] is modelled on ASCII letters
      only.  No non-ASCII character lowers to a letter occurring in one of
      the supported suffixes, so membership in the supported set is not
      affected.
    - A [pathlib.Path] is the list of its components.
    - A Python [dict] with string keys is a [gmap string PyVal].
    - The text extractor, directory creation and file writing are calls to
      an environment whose answers are not known to the orchestrator; each
      call may return or raise.  Every call is recorded in a trace. *)

From Stdlib Require Import ZArith Ascii String List Bool Lia.
From stdpp Require Import base option list gmap strings.

Local Open Scope string_scope.
Local Open Scope Z_scope.
Local Open Scope list_scope.

(** ** Python values *)

Inductive PyVal : Type :=
| VNone
| VBool (b : bool)
| VInt (z : Z)
| VStr (s : string).

#[global] Instance PyVal_eq_dec : EqDecision PyVal.
Proof. solve_decision. Defined.

(** Truth value testing: [None], [False], [0] and [''] are false. *)
Definition truthy (v : PyVal) : bool :=
  match v with
  | VNone => false
  | VBool b => b
  | VInt z => negb (z =? 0)
  | VStr s => negb (String.eqb s "")
  end.

Inductive Exn : Type :=
| KeyError (key : string)
| ValueError (msg : string)
| TypeError (msg : string)
| OSError (msg : string)
| RuntimeError (msg : string).

(** The result of running a piece of Python: a value, or a raised
    exception. *)
Inductive Outcome (A : Type) : Type :=
| Returned (a : A)
| Raised (e : Exn).
Arguments Returned {A} a.
Arguments Raised {A} e.

Definition returns {A} (o : Outcome A) : bool :=
  match o with Returned _ => true | Raised _ => false end.

(** ** Dictionaries *)

Abbreviation Dict := (gmap string PyVal).

(** [d.get(k)] *)
Definition dict_get (d : Dict) (k : string) : PyVal :=
  default VNone (d !! k).

(** [d.get(k, dflt)] *)
Definition dict_get_default (d : Dict) (k : string) (dflt : PyVal) : PyVal :=
  default dflt (d !! k).

(** [d[k]] *)
Definition dict_index (d : Dict) (k : string) : Outcome PyVal :=
  match d !! k with
  | Some v => Returned v
  | None => Raised (KeyError k)
  end.

(** ** Strings *)

Definition lower_ascii (c : ascii) : ascii :=
  let n := nat_of_ascii c in
  if (65 <=? n)%nat && (n <=? 90)%nat then ascii_of_nat (n + 32) else c.

(** [s.lower()] *)
Fixpoint lower (s : string) : string :=
  match s with
  | EmptyString => EmptyString
  | String c s' => String (lower_ascii c) (lower s')
  end.

(** [s.rfind(c)], with [None] for Python's [-1]. *)
Fixpoint rfind (c : ascii) (s : string) : option nat :=
  match s with
  | EmptyString => None
  | String a s' =>
      match rfind c s' with
      | Some j => Some (S j)
      | None => if Ascii.eqb a c then Some O else None
      end
  end.

Fixpoint contains (c : ascii) (s : string) : bool :=
  match s with
  | EmptyString => false
  | String a s' => Ascii.eqb a c || contains c s'
  end.

(** ["=" * n] *)
Fixpoint rule (n : nat) : string :=
  match n with
  | O => EmptyString
  | S n' => String "=" (rule n')
  end.

Definition startswith_dot (s : string) : bool :=
  match s with
  | String a _ => Ascii.eqb a "."
  | EmptyString => false
  end.

(** ** Paths *)

Abbreviation Path := (list string).

(** [p.name]: the final component, [''] when there is none. *)
Definition name (p : Path) : string := List.last p "".

(** [p.parent] *)
Definition parent (p : Path) : Path := removelast p.

(** [str(p)] *)
Definition path_str (p : Path) : string :=
  match p with
  | [] => "."
  | _ => String.concat "/" p
  end.

(** [name[i:]] when [0 < i < len(name) - 1] for [i = name.rfind('.')], and
    [''] otherwise. *)
Definition name_suffix (nm : string) : string :=
  match rfind "." nm with
  | Some i =>
      if (0 <? i)%nat && (i <? String.length nm - 1)%nat
      then substring i (String.length nm - i) nm
      else ""
  | None => ""
  end.

(** [p.suffix] *)
Definition suffix (p : Path) : string := name_suffix (name p).

(** [p.relative_to(base)] *)
Fixpoint relative_to (p base : Path) {struct base} : Outcome Path :=
  match base with
  | [] => Returned p
  | b :: base' =>
      match p with
      | c :: p' =>
          if String.eqb c b then relative_to p' base'
          else Raised (ValueError "is not in the subpath of")
      | [] => Raised (ValueError "is not in the subpath of")
      end
  end.

(** [p.with_suffix(sfx)] *)
Definition with_suffix (p : Path) (sfx : string) : Outcome Path :=
  if contains "/" sfx then Raised (ValueError "Invalid suffix")
  else if (negb (String.eqb sfx "") && negb (startswith_dot sfx))
          || String.eqb sfx "."
  then Raised (ValueError "Invalid suffix")
  else
    let nm := name p in
    if String.eqb nm "" then Raised (ValueError "has an empty name")
    else
      let old := suffix p in
      let nm' :=
        if String.eqb old "" then nm +:+ sfx
        else substring 0 (String.length nm - String.length old) nm +:+ sfx in
      Returned (removelast p ++ [nm']).

(** [a / b] for a relative [b] *)
Definition joinpath (a b : Path) : Path := (a ++ b).

(** ** The file system seen by the walker

    A directory lists its entries in the order in which the operating
    system returns them; the walker does not reorder them. *)

Inductive Node : Type :=
| File
| Special
| Dir (entries : list (string * Node)).

Fixpoint find_entry (nm : string) (entries : list (string * Node)) : option Node :=
  match entries with
  | [] => None
  | (n, c) :: rest => if String.eqb n nm then Some c else find_entry nm rest
  end.

Fixpoint resolve (n : Node) (p : Path) : option Node :=
  match p with
  | [] => Some n
  | s :: p' =>
      match n with
      | Dir entries =>
          match find_entry s entries with
          | Some c => resolve c p'
          | None => None
          end
      | _ => None
      end
  end.

Definition path_exists (fs : Node) (p : Path) : bool :=
  match resolve fs p with Some _ => true | None => false end.

Definition is_file (fs : Node) (p : Path) : bool :=
  match resolve fs p with Some File => true | _ => false end.

Definition is_dir (fs : Node) (p : Path) : bool :=
  match resolve fs p with Some (Dir _) => true | _ => false end.

(** [here.rglob('*')] for the node found at [here], as CPython's [pathlib]
    (up to 3.12) enumerates it: the entries of the directory in listing
    order, then the same for each subdirectory in listing order.  The
    pattern matches every name, files and directories alike, and nothing
    is sorted. *)
Fixpoint rglob_from (here : Path) (n : Node) : list Path :=
  match n with
  | Dir entries =>
      (List.map (fun e => here ++ [fst e]) entries ++
       List.flat_map (fun '(nm, c) => rglob_from (here ++ [nm]) c) entries)
  | _ => []
  end.

Definition rglob (fs : Node) (p : Path) : list Path :=
  match resolve fs p with
  | Some n => rglob_from p n
  | None => []
  end.

(** ** Supported extensions *)

Definition supported_extensions : gset string :=
  {[ ".pdf"; ".hwp"; ".hwpx"; ".xlsx"; ".xls"; ".xlsm"; ".docx"; ".zip" ]}.

Definition is_supported (f : Path) : bool :=
  bool_decide (lower (suffix f) ∈ supported_extensions).

(** [[f for f in input_dir.rglob('*') if f.suffix.lower() in supported_extensions]] *)
Definition supported_files (fs : Node) (input_dir : Path) : list Path :=
  List.filter is_supported (rglob fs input_dir).

(** ** Effects

    The orchestrator talks to three collaborators it does not implement:
    the [TextExtractor] of the [text_extraction] module (its constructor and
    its [extract_text] method), [Path.mkdir] and [Path.write_text].  Their
    behaviour is a parameter of the development: each is a function of an
    abstract world that returns a result or raises, and a new world. *)

Inductive Level : Type := DEBUG | INFO | WARNING | ERROR.

(** One constructor per logging call of the source.  An [EvLog] event
    records the call to the logger, whatever the level in force. *)
Inductive LogMsg : Type :=
| MsgExtractingFrom (nm : string)
| MsgExtractionFailed (err : PyVal)
| MsgExtracted (chars words : PyVal)
| MsgSaved (p : Path)
| MsgNoSupported (dir : Path)
| MsgFound (n : nat)
| MsgProcessing (idx total : nat) (nm : string)
| MsgFailed (err : PyVal)
| MsgExtractedChars (chars : PyVal)
| MsgRule
| MsgComplete (processed errors : Z)
| MsgNotExist (p : Path)
| MsgInvalid (p : Path).

Inductive Event : Type :=
| EvInit (root : Path) (o : Outcome unit)
| EvExtract (p : Path) (o : Outcome Dict)
| EvMkdir (p : Path) (o : Outcome unit)
| EvWrite (p : Path) (data : PyVal) (o : Outcome unit)
| EvLog (lvl : Level) (msg : LogMsg)
| EvPrint (v : PyVal).

Record Env (W : Type) : Type := {
  (** [TextExtractor(data_lake_root=root)] *)
  env_init : Path -> W -> Outcome unit * W;
  (** [extractor.extract_text(p)] *)
  env_extract : Path -> W -> Outcome Dict * W;
  (** [p.mkdir(parents=True, exist_ok=True)] *)
  env_mkdir : Path -> W -> Outcome unit * W;
  (** [p.write_text(data, encoding='utf-8')] for a [str] [data] *)
  env_write : Path -> string -> W -> Outcome unit * W;
}.
Arguments env_init {W} _ _ _.
Arguments env_extract {W} _ _ _.
Arguments env_mkdir {W} _ _ _.
Arguments env_write {W} _ _ _ _.

(** The batch report built by [extract_directory]: the dictionary with the
    keys ['processed'], ['errors'] and ['files']. *)
Record BatchReport : Type := {
  processed : Z;
  errors : Z;
  files : list Dict;
}.

Section Orchestrator.

Context {W : Type} (env : Env W).

(** A computation takes the world, and gives a value or an exception,
    the new world, and the calls it made, in order. *)
Definition M (A : Type) : Type := W -> Outcome A * W * list Event.

Definition ret {A} (a : A) : M A := fun w => (Returned a, w, []).

Definition bind {A B} (m : M A) (k : A -> M B) : M B :=
  fun w =>
    match m w with
    | (Returned a, w1, t1) =>
        let '(o, w2, t2) := k a w1 in (o, w2, (t1 ++ t2))
    | (Raised e, w1, t1) => (Raised e, w1, t1)
    end.

Definition lift {A} (o : Outcome A) : M A := fun w => (o, w, []).

Definition emit (ev : Event) : M unit := fun w => (Returned tt, w, [ev]).

Definition call {A} (f : W -> Outcome A * W) (ev : Outcome A -> Event) : M A :=
  fun w => let '(o, w') := f w in (o, w', [ev o]).

Notation "x <- m ;; k" := (bind m (fun x => k))
  (at level 100, m at next level, right associativity).
Notation "m ;;; k" := (bind m (fun _ => k))
  (at level 100, right associativity).

Definition log (lvl : Level) (msg : LogMsg) : M unit := emit (EvLog lvl msg).

Definition TextExtractor (root : Path) : M unit :=
  call (env_init env root) (EvInit root).

Definition extract_text (p : Path) : M Dict :=
  call (env_extract env p) (EvExtract p).

Definition mkdir (p : Path) : M unit :=
  call (env_mkdir env p) (EvMkdir p).

(** [write_text] rejects data that is not a [str] before it opens the
    file. *)
Definition write_text (p : Path) (data : PyVal) : M unit :=
  match data with
  | VStr s => call (env_write env p s) (EvWrite p data)
  | _ => call (fun w => (Raised (TypeError "data must be str"), w))
              (EvWrite p data)
  end.

(** *** [extract_single_file] *)

Definition extract_single_file (file_path : Path) (output_path : option Path)
  : M Dict :=
  TextExtractor (parent file_path) ;;;
  log INFO (MsgExtractingFrom (name file_path)) ;;;
  result <- extract_text file_path ;;
  if truthy (dict_get result "error") then
    err <- lift (dict_index result "error") ;;
    log ERROR (MsgExtractionFailed err) ;;;
    ret result
  else
    log INFO (MsgExtracted (dict_get_default result "char_count" (VInt 0))
                           (dict_get_default result "word_count" (VInt 0))) ;;;
    match output_path with
    | Some out =>
        if truthy (dict_get result "text") then
          mkdir (parent out) ;;;
          text <- lift (dict_index result "text") ;;
          write_text out text ;;;
          log INFO (MsgSaved out)
        else ret tt
    | None => ret tt
    end ;;;
    ret result.

(** *** [extract_directory] *)

Definition file_result_of (file_path : Path) (result : Dict) : Dict :=
  {[ "file" := VStr (path_str file_path);
     "success" := VBool (negb (truthy (dict_get result "error")));
     "chars" := dict_get_default result "char_count" (VInt 0);
     "words" := dict_get_default result "word_count" (VInt 0) ]}.

(** The body of the [for] loop, for the file at position [idx] (counted
    from 1) out of [total]. *)
Definition loop_body (input_dir : Path) (output_dir : option Path)
    (total : nat) (results : BatchReport) (idx : nat) (file_path : Path)
  : M BatchReport :=
  log INFO (MsgProcessing idx total (name file_path)) ;;;
  result <- extract_text file_path ;;
  let file_result := file_result_of file_path result in
  updated <-
    (if truthy (dict_get result "error") then
       err <- lift (dict_index result "error") ;;
       let file_result := <["error" := err]> file_result in
       let results := {| processed := processed results;
                         errors := errors results + 1;
                         files := files results |} in
       err' <- lift (dict_index result "error") ;;
       log WARNING (MsgFailed err') ;;;
       ret (file_result, results)
     else
       let results := {| processed := processed results + 1;
                         errors := errors results;
                         files := files results |} in
       log INFO (MsgExtractedChars
                   (dict_get_default result "char_count" (VInt 0))) ;;;
       match output_dir with
       | Some out_dir =>
           if truthy (dict_get result "text") then
             relative_path <- lift (relative_to file_path input_dir) ;;
             renamed <- lift (with_suffix relative_path ".txt") ;;
             let output_file := joinpath out_dir renamed in
             mkdir (parent output_file) ;;;
             text <- lift (dict_index result "text") ;;
             write_text output_file text
           else ret tt
       | None => ret tt
       end ;;;
       ret (file_result, results)) ;;
  let '(file_result, results) := updated in
  ret {| processed := processed results;
         errors := errors results;
         files := (files results ++ [file_result]) |}.

(** [for idx, file_path in enumerate(files, idx): body] *)
Fixpoint loop (input_dir : Path) (output_dir : option Path) (total : nat)
    (idx : nat) (todo : list Path) (results : BatchReport) : M BatchReport :=
  match todo with
  | [] => ret results
  | file_path :: todo' =>
      results' <- loop_body input_dir output_dir total results idx file_path ;;
      loop input_dir output_dir total (S idx) todo' results'
  end.

Definition empty_report : BatchReport :=
  {| processed := 0; errors := 0; files := [] |}.

Definition extract_directory (fs : Node) (input_dir : Path)
    (output_dir : option Path) : M BatchReport :=
  TextExtractor input_dir ;;;
  let found := supported_files fs input_dir in
  match found with
  | [] =>
      log WARNING (MsgNoSupported input_dir) ;;;
      ret empty_report
  | _ =>
      log INFO (MsgFound (length found)) ;;;
      results <- loop input_dir output_dir (length found) 1 found empty_report ;;
      log INFO MsgRule ;;;
      log INFO (MsgComplete (processed results) (errors results)) ;;;
      ret results
  end.

(** *** [main], after argument parsing

    [input_path] is [Path(args.input)], [output_path] is [Path(args.output)]
    or [None], and [print_text] is [args.print_text].  The value returned
    is the argument of [sys.exit]. *)
Definition main (fs : Node) (input_path : Path) (output_path : option Path)
    (print_text : bool) : M Z :=
  if negb (path_exists fs input_path) then
    log ERROR (MsgNotExist input_path) ;;;
    ret 1
  else if is_file fs input_path then
    result <- extract_single_file input_path output_path ;;
    (if print_text && truthy (dict_get result "text") then
       emit (EvPrint (VStr (String "010" (rule 60)))) ;;;
       emit (EvPrint (VStr "EXTRACTED TEXT:")) ;;;
       emit (EvPrint (VStr (rule 60))) ;;;
       text <- lift (dict_index result "text") ;;
       emit (EvPrint text)
     else ret tt) ;;;
    ret (if negb (truthy (dict_get result "error")) then 0 else 1)
  else if is_dir fs input_path then
    results <- extract_directory fs input_path output_path ;;
    ret (if errors results =? 0 then 0 else 1)
  else
    log ERROR (MsgInvalid input_path) ;;;
    ret 1.

End Orchestrator.


(** ** Reading a run *)

Definition outcome {A W} (r : Outcome A * W * list Event) : Outcome A := fst (fst r).
Definition trace {A W} (r : Outcome A * W * list Event) : list Event := snd r.

(** The call returned (logging and printing always do). *)
Definition ev_ok (ev : Event) : bool :=
  match ev with
  | EvInit _ o => returns o
  | EvExtract _ o => returns o
  | EvMkdir _ o => returns o
  | EvWrite _ _ o => returns o
  | EvLog _ _ => true
  | EvPrint _ => true
  end.

(** The exception a call raised. *)
Definition ev_exn (ev : Event) : option Exn :=
  match ev with
  | EvInit _ (Raised e) => Some e
  | EvExtract _ (Raised e) => Some e
  | EvMkdir _ (Raised e) => Some e
  | EvWrite _ _ (Raised e) => Some e
  | _ => None
  end.

(** The paths [extract_text] was called on, in order. *)
Fixpoint extract_calls (tr : list Event) : list Path :=
  match tr with
  | [] => []
  | EvExtract p _ :: tr' => p :: extract_calls tr'
  | _ :: tr' => extract_calls tr'
  end.

(** The results [extract_text] returned, with the path of each call. *)
Fixpoint extract_results (tr : list Event) : list (Path * Dict) :=
  match tr with
  | [] => []
  | EvExtract p (Returned d) :: tr' => (p, d) :: extract_results tr'
  | _ :: tr' => extract_results tr'
  end.

(** The directories [mkdir] was called on. *)
Fixpoint mkdir_calls (tr : list Event) : list Path :=
  match tr with
  | [] => []
  | EvMkdir p _ :: tr' => p :: mkdir_calls tr'
  | _ :: tr' => mkdir_calls tr'
  end.

(** The calls of [write_text]: destination and data. *)
Fixpoint write_calls (tr : list Event) : list (Path * PyVal) :=
  match tr with
  | [] => []
  | EvWrite p data _ :: tr' => (p, data) :: write_calls tr'
  | _ :: tr' => write_calls tr'
  end.

(** The files written: the calls of [write_text] that returned. *)
Fixpoint written (tr : list Event) : list (Path * PyVal) :=
  match tr with
  | [] => []
  | EvWrite p data (Returned _) :: tr' => (p, data) :: written tr'
  | _ :: tr' => written tr'
  end.

(** ** What a run of the loop should leave behind

    These definitions restate, for one processed file, what the loop body
    is meant to record and where it is meant to write; the lemmas below
    relate them to [loop_body]. *)

(** The extraction reported a failure. *)
Definition failed (d : Dict) : bool := truthy (dict_get d "error").

(** The extraction succeeded and gave some text to save. *)
Definition saves (d : Dict) : bool :=
  negb (failed d) && truthy (dict_get d "text").

(** The file record appended for a file and its extraction result. *)
Definition record_of (pd : Path * Dict) : Dict :=
  let file_result := file_result_of (fst pd) (snd pd) in
  if failed (snd pd)
  then <["error" := dict_get (snd pd) "error"]> file_result
  else file_result.

(** [output_dir / file_path.relative_to(input_dir).with_suffix('.txt')] *)
Definition output_file_of (input_dir out_dir file_path : Path) : Outcome Path :=
  match relative_to file_path input_dir with
  | Returned relative_path =>
      match with_suffix relative_path ".txt" with
      | Returned renamed => Returned (joinpath out_dir renamed)
      | Raised e => Raised e
      end
  | Raised e => Raised e
  end.

(** The part of a name before its suffix. *)
Definition stem (nm : string) : string :=
  substring 0 (String.length nm - String.length (name_suffix nm)) nm.

(** The mirror of a file of the input tree under the output root: the same
    intermediate directories, and the name with its suffix replaced by
    [.txt]. *)
Definition mirrored (input_dir out_dir file_path : Path) : Path :=
  let relative := drop (length input_dir) file_path in
  out_dir ++ removelast relative ++ [stem (name file_path) +:+ ".txt"].

(** The write the loop performs for a file, if any. *)
Definition artifact (input_dir : Path) (output_dir : option Path)
    (pd : Path * Dict) : option (Path * PyVal) :=
  match output_dir with
  | Some out_dir =>
      if saves (snd pd)
      then Some (mirrored input_dir out_dir (fst pd), dict_get (snd pd) "text")
      else None
  | None => None
  end.

(** Number of results counted as successes and as failures. *)
Definition successes (ds : list (Path * Dict)) : Z :=
  Z.of_nat (length (List.filter (fun pd => negb (failed (snd pd))) ds)).

Definition failures (ds : list (Path * Dict)) : Z :=
  Z.of_nat (length (List.filter (fun pd => failed (snd pd)) ds)).

(** A path the walker can mirror: it lies strictly below the input
    directory and its name has a suffix. *)
Definition below (input_dir file_path : Path) : Prop :=
  exists segs nm, file_path = input_dir ++ segs ++ [nm] /\ name_suffix nm <> "".

(** The invariant of the batch report. *)
Definition counts_match (r : BatchReport) : Prop :=
  processed r + errors r = Z.of_nat (length (files r)).

(** A file record that summarises the result [d] obtained for the path
    [p]: the path, a success flag that is true exactly when [d] reports no
    error, the counts of [d] or 0 where [d] has none, and the error of [d]
    when it reports one. *)
Definition record_matches (pd : Path * Dict) (fr : Dict) : Prop :=
  fr !! "file" = Some (VStr (path_str (fst pd))) /\
  (exists b, fr !! "success" = Some (VBool b) /\ (b = true <-> failed (snd pd) = false)) /\
  fr !! "chars" = Some (default (VInt 0) (snd pd !! "char_count")) /\
  fr !! "words" = Some (default (VInt 0) (snd pd !! "word_count")) /\
  fr !! "error" = (if failed (snd pd) then snd pd !! "error" else None).

(** The regular files below [input_dir] whose suffix is supported. *)
Definition supported_regular_files (fs : Node) (input_dir : Path) : list Path :=
  List.filter (fun p => is_file fs p && is_supported p) (rglob fs input_dir).

(** ** More ways to read a trace *)

(** The roots the extractor was built on. *)
Fixpoint init_calls (tr : list Event) : list Path :=
  match tr with
  | [] => []
  | EvInit root _ :: tr' => root :: init_calls tr'
  | _ :: tr' => init_calls tr'
  end.

(** What was printed on the console. *)
Fixpoint prints (tr : list Event) : list PyVal :=
  match tr with
  | [] => []
  | EvPrint v :: tr' => v :: prints tr'
  | _ :: tr' => prints tr'
  end.

(** The messages handed to the logger. *)
Fixpoint logged (tr : list Event) : list (Level * LogMsg) :=
  match tr with
  | [] => []
  | EvLog lvl msg :: tr' => (lvl, msg) :: logged tr'
  | _ :: tr' => logged tr'
  end.

(** The calls to the collaborators, without logging and printing. *)
Definition is_call (ev : Event) : bool :=
  match ev with
  | EvLog _ _ | EvPrint _ => false
  | _ => true
  end.

Definition calls (tr : list Event) : list Event := List.filter is_call tr.

(** The calls one file of a batch gives rise to when all of them return:
    the extraction, then, if there is something to save, the creation of
    the parent directory and the write. *)
Definition calls_of (input_dir : Path) (output_dir : option Path)
    (pd : Path * Dict) : list Event :=
  EvExtract (fst pd) (Returned (snd pd)) ::
  match artifact input_dir output_dir pd with
  | Some (q, text) =>
      [EvMkdir (parent q) (Returned tt); EvWrite q text (Returned tt)]
  | None => []
  end.

(** The progress messages of a batch over [found], numbered from [idx]. *)
Fixpoint progress (total idx : nat) (found : list Path) : list LogMsg :=
  match found with
  | [] => []
  | p :: found' => MsgProcessing idx total (name p) :: progress total (S idx) found'
  end.

Definition is_progress (m : Level * LogMsg) : bool :=
  match snd m with
  | MsgProcessing _ _ _ => true
  | _ => false
  end.

(** A tree in which the names listed in a directory are pairwise
    distinct, as they are in a real directory. *)
Fixpoint distinct_names (n : Node) : Prop :=
  match n with
  | Dir entries =>
      NoDup (List.map fst entries) /\
      List.fold_right (fun e rest => distinct_names (snd e) /\ rest) True entries
  | _ => True
  end.

(** The success flag of a file record. *)
Definition succeeded (fr : Dict) : bool :=
  bool_decide (fr !! "success" = Some (VBool true)).

(** What [main] prints for the result [d] with [--print-text]: a rule, a
    heading, a rule, and the text. *)
Definition console_output (d : Dict) : list PyVal :=
  [VStr (String "010" (rule 60)); VStr "EXTRACTED TEXT:"; VStr (rule 60);
   dict_get d "text"].

(** ** Orders of a walk *)








(** ** Sample trees and collaborators

    Concrete inputs on which the functions are run: the scenarios of the
    tool's documentation, and a few trees around them. *)

Module Sample.

(** Collaborators that answer from the path alone and keep no state. *)
Definition pure_env (ex : Path -> Outcome Dict) (mk : Path -> Outcome unit)
    (wr : Path -> string -> Outcome unit) : Env unit :=
  {| env_init := fun _ w => (Returned tt, w);
     env_extract := fun p w => (ex p, w);
     env_mkdir := fun p w => (mk p, w);
     env_write := fun p s w => (wr p s, w) |}.

Definition ok_dict (text : string) (chars words : Z) : Dict :=
  {[ "text" := VStr text; "char_count" := VInt chars; "word_count" := VInt words ]}.

Definition err_dict (msg : string) : Dict :=
  {[ "error" := VStr msg ]}.

Definition extractor (p : Path) : Outcome Dict :=
  let nm := name p in
  if String.eqb nm "a.pdf" then Returned (ok_dict "Hello world" 11 2)
  else if String.eqb nm "report.docx" then Returned (ok_dict "Q1 results" 10 2)
  else if String.eqb nm "c.xlsx" then Returned (err_dict "corrupt archive")
  else if String.eqb nm "reports.pdf" then Returned (err_dict "Is a directory")
  else if String.eqb nm "d.DOCX" then Returned (ok_dict "Deep" 4 1)
  else if String.eqb nm "e.zip" then Raised (RuntimeError "bad zip file")
  else Returned (ok_dict "" 0 0).

(** Every directory can be created and every file written. *)
Definition env : Env unit :=
  pure_env extractor (fun _ => Returned tt) (fun _ _ => Returned tt).

(** Nothing can be written. *)
Definition readonly_env : Env unit :=
  pure_env extractor (fun _ => Returned tt)
           (fun _ _ => Raised (OSError "Permission denied")).

Definition tree : Node :=
  Dir [("docs", Dir [("a.pdf", File); ("b.txt", File); ("c.xlsx", File);
                     ("sub", Dir [("d.DOCX", File)])]);
       ("report.docx", File);
       ("empty.docx", File);
       ("notes", Dir [("b.txt", File)]);
       ("pipe", Special)].

(** A directory whose own name ends in a supported suffix. *)
Definition tree_dir : Node :=
  Dir [("docs", Dir [("reports.pdf", Dir [("notes.txt", File)])])].

(** A file on which the extractor raises, listed before another file. *)
Definition tree_zip : Node :=
  Dir [("docs", Dir [("e.zip", File); ("a.pdf", File)])].


(** A file whose extraction succeeds with an empty text, next to one that
    has a text. *)
Definition tree_blank : Node :=
  Dir [("docs", Dir [("a.pdf", File); ("empty.docx", File)])].

(** An extractor whose results carry an empty error, or counts beside an
    error. *)
Definition odd_extractor (p : Path) : Outcome Dict :=
  let nm := name p in
  if String.eqb nm "blank.pdf"
  then Returned {[ "error" := VStr ""; "text" := VStr "body";
                   "char_count" := VInt 4; "word_count" := VInt 1 ]}
  else if String.eqb nm "partial.pdf"
  then Returned {[ "error" := VStr "truncated";
                   "char_count" := VInt 7; "word_count" := VInt 2 ]}
  else Returned (ok_dict "" 0 0).

Definition odd_env : Env unit :=
  pure_env odd_extractor (fun _ => Returned tt) (fun _ _ => Returned tt).

Definition tree_odd : Node :=
  Dir [("docs", Dir [("blank.pdf", File); ("partial.pdf", File)])].

(** The report of a batch over [docs] in [tree]. *)
Definition report_docs : BatchReport :=
  {| processed := 2;
     errors := 1;
     files :=
       [ {[ "file" := VStr "docs/a.pdf"; "success" := VBool true;
            "chars" := VInt 11; "words" := VInt 2 ]};
         {[ "file" := VStr "docs/c.xlsx"; "success" := VBool false;
            "chars" := VInt 0; "words" := VInt 0;
            "error" := VStr "corrupt archive" ]};
         {[ "file" := VStr "docs/sub/d.DOCX"; "success" := VBool true;
            "chars" := VInt 4; "words" := VInt 1 ]} ] |}.


End Sample.

(** * Properties *)

(** ** Path and suffix computations *)

Example suffix_pdf : suffix ["docs"; "a.PDF"] = ".PDF".
Proof. reflexivity. Qed.
Example suffix_hidden : suffix ["docs"; ".pdf"] = "".
Proof. reflexivity. Qed.
Example suffix_trailing_dot : suffix ["docs"; "a.pdf."] = "".
Proof. reflexivity. Qed.
Example suffix_two : suffix ["x.tar.zip"] = ".zip".
Proof. reflexivity. Qed.
Example supported_upper : is_supported ["docs"; "a.PDF"] = true.
Proof. vm_compute. reflexivity. Qed.
Example supported_txt : is_supported ["docs"; "b.txt"] = false.
Proof. vm_compute. reflexivity. Qed.
Example with_suffix_ex :
  with_suffix ["sub"; "x.tar.zip"] ".txt" = Returned ["sub"; "x.tar.txt"].
Proof. reflexivity. Qed.

(** ** Names, stems and suffixes *)

Lemma append_cons (a : ascii) (s t : string) : String a s +:+ t = String a (s +:+ t).
Proof. reflexivity. Qed.

Lemma append_nil (t : string) : "" +:+ t = t.
Proof. reflexivity. Qed.

Lemma append_nil_r (s : string) : s +:+ "" = s.
Proof. induction s as [|a s IH]; [done|]. by rewrite append_cons, IH. Qed.

Lemma substring_all (s : string) : substring 0 (String.length s) s = s.
Proof. induction s as [|a s IH]; simpl; [done | by rewrite IH]. Qed.

Lemma substring_split (s : string) :
  forall i, (i <= String.length s)%nat ->
    substring 0 i s +:+ substring i (String.length s - i) s = s.
Proof.
  induction s as [|a s IH]; intros [|i] Hi; simpl in *; try done; try lia.
  - rewrite ?append_cons, ?append_nil. by rewrite substring_all.
  - rewrite ?append_cons, ?append_nil. rewrite IH by lia. done.
Qed.

Lemma substring_length (s : string) :
  forall i n, (i + n <= String.length s)%nat ->
    String.length (substring i n s) = n.
Proof.
  induction s as [|a s IH]; intros [|i] [|n] Hn; simpl in *; try done; try lia.
  - rewrite (IH 0%nat n) by lia. done.
  - apply (IH i 0%nat). lia.
  - apply (IH i (S n)). lia.
Qed.

Lemma rfind_lt (c : ascii) (s : string) (i : nat) :
  rfind c s = Some i -> (i < String.length s)%nat.
Proof.
  revert i. induction s as [|a s IH]; intros i; simpl; [done|].
  destruct (rfind c s) as [j|].
  - intros [= <-]. specialize (IH j eq_refl). lia.
  - destruct (Ascii.eqb a c); [|done]. intros [= <-]. lia.
Qed.

(** A name is its stem followed by its suffix. *)
Lemma stem_suffix (nm : string) : stem nm +:+ name_suffix nm = nm.
Proof.
  unfold stem, name_suffix.
  destruct (rfind "." nm) as [i|] eqn:Hr.
  2:{ simpl. by rewrite Nat.sub_0_r, substring_all, append_nil_r. }
  apply rfind_lt in Hr.
  destruct ((0 <? i)%nat && (i <? String.length nm - 1)%nat).
  2:{ simpl. by rewrite Nat.sub_0_r, substring_all, append_nil_r. }
  rewrite substring_length by lia.
  replace (String.length nm - (String.length nm - i))%nat with i by lia.
  apply substring_split. lia.
Qed.


(** ** Traces *)

Lemma extract_calls_app t1 t2 :
  extract_calls (t1 ++ t2) = extract_calls t1 ++ extract_calls t2.
Proof.
  induction t1 as [|ev t1 IH]; [done|].
  destruct ev; simpl; rewrite ?IH; done.
Qed.

Lemma extract_results_app t1 t2 :
  extract_results (t1 ++ t2) = extract_results t1 ++ extract_results t2.
Proof.
  induction t1 as [|ev t1 IH]; [done|].
  destruct ev as [| ? [] | | | |]; simpl; rewrite ?IH; done.
Qed.

Lemma mkdir_calls_app t1 t2 :
  mkdir_calls (t1 ++ t2) = mkdir_calls t1 ++ mkdir_calls t2.
Proof.
  induction t1 as [|ev t1 IH]; [done|].
  destruct ev; simpl; rewrite ?IH; done.
Qed.

Lemma write_calls_app t1 t2 :
  write_calls (t1 ++ t2) = write_calls t1 ++ write_calls t2.
Proof.
  induction t1 as [|ev t1 IH]; [done|].
  destruct ev; simpl; rewrite ?IH; done.
Qed.


(** When every call returned, the calls and their results agree. *)
Lemma extract_results_calls tr :
  forallb ev_ok tr = true -> List.map fst (extract_results tr) = extract_calls tr.
Proof.
  induction tr as [|ev tr IH]; [done|]. simpl.
  intros [Hev Htr]%andb_true_iff.
  destruct ev as [| ? [] | | | |]; simpl in *; rewrite ?IH; done.
Qed.

Lemma written_all tr : forallb ev_ok tr = true -> written tr = write_calls tr.
Proof.
  induction tr as [|ev tr IH]; [done|]. simpl.
  intros [Hev Htr]%andb_true_iff.
  destruct ev as [| | | ? ? [] | |]; simpl in *; rewrite ?IH; done.
Qed.

(** ** Dictionaries *)

Lemma truthy_get_index (d : Dict) (k : string) :
  truthy (dict_get d k) = true -> dict_index d k = Returned (dict_get d k).
Proof.
  unfold dict_get, dict_index. destruct (d !! k); simpl; [done | discriminate].
Qed.

(** ** Paths *)

Lemma relative_to_app (base rel : Path) : relative_to (base ++ rel) base = Returned rel.
Proof.
  induction base as [|b base IH]; [reflexivity|]. simpl. rewrite String.eqb_refl. exact IH.
Qed.

Lemma name_snoc (segs : Path) (nm : string) : name (segs ++ [nm]) = nm.
Proof. unfold name. apply last_last. Qed.

Lemma supported_suffix_nonempty (p : Path) :
  is_supported p = true -> suffix p <> "".
Proof.
  unfold is_supported. intros H E. rewrite E in H. vm_compute in H. discriminate.
Qed.

Lemma with_suffix_txt (segs : Path) (nm : string) :
  name_suffix nm <> "" ->
  with_suffix (segs ++ [nm]) ".txt" = Returned (segs ++ [stem nm +:+ ".txt"]).
Proof.
  intros Hs. unfold with_suffix, suffix. simpl contains. simpl startswith_dot.
  cbn [orb andb negb String.eqb Ascii.eqb Bool.eqb]. rewrite name_snoc.
  destruct (String.eqb_spec nm "") as [->|Hnm]; [by destruct Hs|].
  destruct (String.eqb_spec (name_suffix nm) "") as [E|_]; [done|].
  by rewrite removelast_last.
Qed.

Lemma output_file_of_below (input_dir out_dir p : Path) :
  below input_dir p ->
  output_file_of input_dir out_dir p = Returned (mirrored input_dir out_dir p).
Proof.
  intros (segs & nm & -> & Hs). unfold output_file_of, mirrored, joinpath.
  rewrite relative_to_app, with_suffix_txt by done.
  rewrite drop_app_length, removelast_last.
  replace (name (input_dir ++ segs ++ [nm])) with nm; [done|].
  by rewrite (app_assoc input_dir), name_snoc.
Qed.

Lemma below_paths (input_dir out_dir p : Path) :
  below input_dir p ->
  exists rel q,
    relative_to p input_dir = Returned rel /\
    with_suffix rel ".txt" = Returned q /\
    joinpath out_dir q = mirrored input_dir out_dir p.
Proof.
  intros Hb. pose proof (output_file_of_below input_dir out_dir p Hb) as Ho.
  destruct Hb as (segs & nm & -> & Hs). unfold output_file_of in Ho.
  rewrite relative_to_app, with_suffix_txt in Ho by done.
  exists (segs ++ [nm]), (segs ++ [stem nm +:+ ".txt"]).
  split_and!; [apply relative_to_app | by apply with_suffix_txt | by injection Ho].
Qed.

Section BodyLemmas.

Context {W : Type} (env : Env W).

Lemma loop_body_calls input_dir output_dir total results idx p w :
  extract_calls (trace (loop_body env input_dir output_dir total results idx p w)) = [p].
Proof.
  unfold loop_body, bind, log, emit, extract_text, mkdir, write_text, call, lift, ret, trace.
  destruct (env_extract env p w) as [[d|e0] w1]; [|done].
  destruct (truthy (dict_get d "error")) eqn:Herr.
  { rewrite truthy_get_index by done. done. }
  destruct output_dir as [out_dir|]; [|done].
  destruct (truthy (dict_get d "text")) eqn:Htext; [|done].
  rewrite truthy_get_index by done.
  destruct (relative_to p input_dir) as [rel|e1]; [|done].
  destruct (with_suffix rel ".txt") as [q|e2]; [|done].
  destruct (env_mkdir env _ w1) as [[[]|e3] w2]; [|done].
  destruct (dict_get d "text") as [| b | z | s];
    try destruct (env_write env _ _ w2) as [[[]|e4] w3]; done.
Qed.

Ltac run_body :=
  unfold loop_body, bind, log, emit, extract_text, mkdir, write_text, call,
    lift, ret.

Ltac body_facts :=
  unfold artifact, saves, record_of, failed; simpl fst; simpl snd;
  repeat match goal with H : truthy _ = _ |- _ => rewrite H end;
  simpl; rewrite ?Z.add_0_r.

(** The loop body, when it returns, has counted the file once and
    appended its record. *)
Lemma loop_body_returned input_dir output_dir total results idx p w r w' tr :
  loop_body env input_dir output_dir total results idx p w = (Returned r, w', tr) ->
  exists d,
    extract_results tr = [(p, d)] /\
    forallb ev_ok tr = true /\
    processed r = processed results + (if failed d then 0 else 1) /\
    errors r = errors results + (if failed d then 1 else 0) /\
    files r = files results ++ [record_of (p, d)].
Proof.
  run_body.
  destruct (env_extract env p w) as [[d|e0] w1]; [|discriminate].
  destruct (truthy (dict_get d "error")) eqn:Herr.
  { rewrite truthy_get_index by done. intros [= <- <- <-].
    exists d. by body_facts. }
  destruct output_dir as [out_dir|].
  2:{ intros [= <- <- <-]. exists d. by body_facts. }
  destruct (truthy (dict_get d "text")) eqn:Htext.
  2:{ intros [= <- <- <-]. exists d. by body_facts. }
  rewrite truthy_get_index by done.
  destruct (relative_to p input_dir) as [rel|e1]; [|discriminate].
  destruct (with_suffix rel ".txt") as [q|e2]; [|discriminate].
  destruct (env_mkdir env _ w1) as [[[]|e3] w2]; [|discriminate].
  destruct (dict_get d "text") as [| b | z | s] eqn:Ht;
    try destruct (env_write env _ _ w2) as [[[]|e4] w3];
    try discriminate.
  intros [= <- <- <-]. exists d. by body_facts.
Qed.

(** What the loop body writes, when it returns. *)
Lemma loop_body_writes input_dir output_dir total results idx p w r w' tr :
  below input_dir p ->
  loop_body env input_dir output_dir total results idx p w = (Returned r, w', tr) ->
  exists d,
    extract_results tr = [(p, d)] /\
    write_calls tr = option_list (artifact input_dir output_dir (p, d)) /\
    mkdir_calls tr =
      option_list (parent <$> (fst <$> artifact input_dir output_dir (p, d))).
Proof.
  intros Hb. run_body.
  destruct (env_extract env p w) as [[d|e0] w1]; [|discriminate].
  destruct (truthy (dict_get d "error")) eqn:Herr.
  { rewrite truthy_get_index by done. intros [= <- <- <-].
    exists d. body_facts. destruct output_dir; done. }
  destruct output_dir as [out_dir|].
  2:{ intros [= <- <- <-]. exists d. by body_facts. }
  destruct (truthy (dict_get d "text")) eqn:Htext.
  2:{ intros [= <- <- <-]. exists d. by body_facts. }
  rewrite truthy_get_index by done.
  destruct (below_paths input_dir out_dir p Hb) as (rel & q & -> & -> & Hm).
  destruct (env_mkdir env _ w1) as [[[]|e3] w2]; [|discriminate].
  destruct (dict_get d "text") as [| b | z | s] eqn:Ht;
    try destruct (env_write env _ _ w2) as [[[]|e4] w3];
    try discriminate.
  intros [= <- <- <-]. exists d. body_facts. by rewrite ?Ht, <- ?Hm, Htext.
Qed.

(** An exception leaving the loop body is the one raised by the last call
    it made. *)
Lemma loop_body_raised input_dir output_dir total results idx p w e w' tr :
  below input_dir p ->
  loop_body env input_dir output_dir total results idx p w = (Raised e, w', tr) ->
  exists tr0 ev,
    tr = tr0 ++ [ev] /\ ev_exn ev = Some e /\ forallb ev_ok tr0 = true.
Proof.
  intros Hb. run_body.
  destruct (env_extract env p w) as [[d|e0] w1].
  2:{ intros [= <- <- <-]. by eexists [_], _. }
  destruct (truthy (dict_get d "error")) eqn:Herr.
  { rewrite truthy_get_index by done. discriminate. }
  destruct output_dir as [out_dir|]; [|discriminate].
  destruct (truthy (dict_get d "text")) eqn:Htext; [|discriminate].
  rewrite truthy_get_index by done.
  destruct (below_paths input_dir out_dir p Hb) as (rel & q & -> & -> & _).
  destruct (env_mkdir env _ w1) as [[[]|e3] w2].
  2:{ intros [= <- <- <-]. by eexists [_; _; _], _. }
  destruct (dict_get d "text") as [| b | z | s] eqn:Ht;
    try destruct (env_write env _ _ w2) as [[[]|e4] w3];
    try discriminate;
    intros [= <- <- <-]; by eexists [_; _; _; _], _.
Qed.

End BodyLemmas.

Lemma ev_exn_not_ok ev e : ev_exn ev = Some e -> ev_ok ev = false.
Proof. destruct ev as [? []|? []|? []|? ? []| |]; simpl; congruence. Qed.

Lemma raised_trace_not_ok tr0 ev e :
  ev_exn ev = Some e -> forallb ev_ok (tr0 ++ [ev]) = false.
Proof.
  intros H. rewrite forallb_app. simpl. rewrite (ev_exn_not_ok _ _ H).
  by rewrite andb_false_r.
Qed.

Lemma successes_app ds1 ds2 : successes (ds1 ++ ds2) = successes ds1 + successes ds2.
Proof. unfold successes. rewrite List.filter_app, length_app. lia. Qed.

Lemma failures_app ds1 ds2 : failures (ds1 ++ ds2) = failures ds1 + failures ds2.
Proof. unfold failures. rewrite List.filter_app, length_app. lia. Qed.

Lemma successes_failures ds : successes ds + failures ds = Z.of_nat (length ds).
Proof.
  induction ds as [|pd ds IH]; [done|].
  change (pd :: ds) with ([pd] ++ ds).
  rewrite successes_app, failures_app, length_app, Nat2Z.inj_add, <- IH.
  unfold successes, failures. simpl. destruct (failed (snd pd)); simpl; lia.
Qed.

Section LoopLemmas.

Context {W : Type} (env : Env W).

Lemma loop_calls_prefix input_dir output_dir total todo :
  forall idx results w,
    extract_calls (trace (loop env input_dir output_dir total idx todo results w))
      `prefix_of` todo.
Proof.
  induction todo as [|p todo IH]; intros idx results w; [done|].
  simpl. unfold bind.
  pose proof (loop_body_calls env input_dir output_dir total results idx p w) as Hc.
  destruct (loop_body env input_dir output_dir total results idx p w)
    as [[[r1|e1] w1] t1]; unfold trace in *; simpl in *.
  - specialize (IH (S idx) r1 w1).
    destruct (loop env input_dir output_dir total (S idx) todo r1 w1)
      as [[o2 w2] t2]; simpl in *.
    rewrite extract_calls_app, Hc. simpl. by apply prefix_cons.
  - rewrite Hc. apply prefix_cons, prefix_nil.
Qed.

Lemma loop_returned input_dir output_dir total todo :
  forall idx results w r w' tr,
    loop env input_dir output_dir total idx todo results w = (Returned r, w', tr) ->
    List.map fst (extract_results tr) = todo /\
    forallb ev_ok tr = true /\
    processed r = processed results + successes (extract_results tr) /\
    errors r = errors results + failures (extract_results tr) /\
    files r = files results ++ List.map record_of (extract_results tr).
Proof.
  induction todo as [|p todo IH]; intros idx results w r w' tr; simpl.
  { unfold ret. intros [= <- <- <-]. simpl.
    rewrite app_nil_r. unfold successes, failures. simpl. split_and!; (done || lia). }
  unfold bind.
  destruct (loop_body env input_dir output_dir total results idx p w)
    as [[[r1|e1] w1] t1] eqn:Hbody; [|discriminate].
  destruct (loop env input_dir output_dir total (S idx) todo r1 w1)
    as [[o2 w2] t2] eqn:Hloop.
  intros [= -> <- <-].
  apply loop_body_returned in Hbody as (d & Hd & Hok1 & Hpr1 & Her1 & Hf1).
  apply IH in Hloop as (Hd2 & Hok2 & Hpr2 & Her2 & Hf2).
  rewrite extract_results_app, forallb_app.
  rewrite Hd, Hok1, Hok2, Hpr2, Her2, Hf2, Hpr1, Her1, Hf1.
  change ([(p, d)] ++ extract_results t2) with ((p, d) :: extract_results t2).
  change ((p, d) :: extract_results t2) with ([(p, d)] ++ extract_results t2) at 2 3.
  rewrite successes_app, failures_app. simpl List.map. rewrite Hd2.
  rewrite <- app_assoc.
  split_and!; try done.
  - unfold successes at 2. simpl. destruct (failed d); simpl; lia.
  - unfold failures at 2. simpl. destruct (failed d); simpl; lia.
Qed.

Lemma loop_writes input_dir output_dir total todo :
  Forall (below input_dir) todo ->
  forall idx results w r w' tr,
    loop env input_dir output_dir total idx todo results w = (Returned r, w', tr) ->
    write_calls tr = omap (artifact input_dir output_dir) (extract_results tr) /\
    mkdir_calls tr =
      List.map (fun a => parent (fst a))
               (omap (artifact input_dir output_dir) (extract_results tr)).
Proof.
  induction 1 as [|p todo Hp _ IH]; intros idx results w r w' tr; simpl.
  { unfold ret. by intros [= <- <- <-]. }
  unfold bind.
  destruct (loop_body env input_dir output_dir total results idx p w)
    as [[[r1|e1] w1] t1] eqn:Hbody; [|discriminate].
  destruct (loop env input_dir output_dir total (S idx) todo r1 w1)
    as [[o2 w2] t2] eqn:Hloop.
  intros [= -> <- <-].
  apply (loop_body_writes env _ _ _ _ _ _ _ _ _ _ Hp) in Hbody
    as (d & Hd & Hw1 & Hm1).
  apply IH in Hloop as (Hw2 & Hm2).
  rewrite extract_results_app, write_calls_app, mkdir_calls_app.
  rewrite Hd, Hw1, Hw2, Hm1, Hm2. simpl.
  destruct (artifact input_dir output_dir (p, d)); done.
Qed.

Lemma loop_raised input_dir output_dir total todo :
  Forall (below input_dir) todo ->
  forall idx results w e w' tr,
    loop env input_dir output_dir total idx todo results w = (Raised e, w', tr) ->
    exists tr0 ev,
      tr = tr0 ++ [ev] /\ ev_exn ev = Some e /\ forallb ev_ok tr0 = true.
Proof.
  induction 1 as [|p todo Hp Htodo IH]; intros idx results w e w' tr; simpl.
  { discriminate. }
  unfold bind.
  destruct (loop_body env input_dir output_dir total results idx p w)
    as [[[r1|e1] w1] t1] eqn:Hbody.
  - destruct (loop env input_dir output_dir total (S idx) todo r1 w1)
      as [[o2 w2] t2] eqn:Hloop.
    intros [= -> <- <-].
    apply IH in Hloop as (tr0 & ev & -> & Hev & Hok).
    apply loop_body_returned in Hbody as (d & _ & Hok1 & _).
    exists (t1 ++ tr0), ev. rewrite app_assoc, forallb_app, Hok1, Hok. done.
  - intros [= <- <- <-].
    by apply (loop_body_raised env _ _ _ _ _ _ _ _ _ _ Hp) in Hbody.
Qed.

End LoopLemmas.

(** ** The walk *)

(** Induction on a tree, with the hypothesis available for every entry of a
    directory. *)
Lemma Node_nested_ind (P : Node -> Prop) :
  P File -> P Special ->
  (forall entries, Forall (fun e => P (snd e)) entries -> P (Dir entries)) ->
  forall n, P n.
Proof.
  intros HF HS HD.
  fix IH 1. intros [| | entries]; [exact HF | exact HS |].
  apply HD. induction entries as [|[nm c] entries IHe]; constructor.
  - apply IH.
  - exact IHe.
Qed.

(** Every path the walk yields lies strictly below its starting point. *)
Lemma rglob_from_below (n : Node) :
  forall here p, In p (rglob_from here n) -> exists segs nm, p = here ++ segs ++ [nm].
Proof.
  induction n as [| | entries IH] using Node_nested_ind; intros here p; simpl;
    [done..|].
  rewrite in_app_iff, in_map_iff, in_flat_map.
  intros [(e & <- & _) | ([nm c] & Hin & Hp)].
  - by exists [], (fst e).
  - rewrite Forall_forall in IH. apply list_elem_of_In in Hin.
    destruct (IH _ Hin _ _ Hp) as (segs & nm' & ->).
    exists (nm :: segs), nm'. by rewrite <- app_assoc.
Qed.

Lemma supported_files_below (fs : Node) (input_dir : Path) :
  Forall (below input_dir) (supported_files fs input_dir).
Proof.
  apply List.Forall_forall. intros p [Hin Hsup]%filter_In.
  unfold rglob in Hin. destruct (resolve fs input_dir) as [n|]; [|done].
  apply rglob_from_below in Hin as (segs & nm & ->).
  exists segs, nm. split; [done|].
  apply supported_suffix_nonempty in Hsup. unfold suffix in Hsup.
  by rewrite (app_assoc input_dir), name_snoc in Hsup.
Qed.

Section DirectoryLemmas.

Context {W : Type} (env : Env W).

Ltac run_dir :=
  unfold extract_directory, bind, TextExtractor, log, emit, call, ret.

Lemma extract_directory_calls_prefix fs input_dir output_dir w :
  extract_calls (trace (extract_directory env fs input_dir output_dir w))
    `prefix_of` supported_files fs input_dir.
Proof.
  run_dir. destruct (env_init env input_dir w) as [[[]|e0] w0];
    [|apply prefix_nil].
  pose proof (loop_calls_prefix env input_dir output_dir
                (length (supported_files fs input_dir))
                (supported_files fs input_dir) 1%nat empty_report w0) as Hp.
  destruct (supported_files fs input_dir) as [|p found] eqn:Hfound; [done|].
  destruct (loop env _ _ _ _ _ _ _) as [[[r|e] w1] t1]; unfold trace in *;
    simpl in *; [|done].
  by rewrite extract_calls_app, app_nil_r.
Qed.

Lemma extract_directory_returned fs input_dir output_dir w r w' tr :
  extract_directory env fs input_dir output_dir w = (Returned r, w', tr) ->
  List.map fst (extract_results tr) = supported_files fs input_dir /\
  forallb ev_ok tr = true /\
  processed r = successes (extract_results tr) /\
  errors r = failures (extract_results tr) /\
  files r = List.map record_of (extract_results tr) /\
  write_calls tr = omap (artifact input_dir output_dir) (extract_results tr) /\
  mkdir_calls tr =
    List.map (fun a => parent (fst a))
             (omap (artifact input_dir output_dir) (extract_results tr)).
Proof.
  run_dir. destruct (env_init env input_dir w) as [[[]|e0] w0]; [|discriminate].
  pose proof (supported_files_below fs input_dir) as Hb.
  pose proof (loop_returned env input_dir output_dir
                (length (supported_files fs input_dir))
                (supported_files fs input_dir) 1%nat empty_report w0) as Hl.
  pose proof (loop_writes env input_dir output_dir
                (length (supported_files fs input_dir)) _ Hb 1%nat
                empty_report w0) as Hlw.
  destruct (supported_files fs input_dir) as [|p found] eqn:Hfound.
  { intros [= <- <- <-]. repeat split. }
  destruct (loop env _ _ _ _ _ _ _) as [[[r1|e] w1] t1]; [|discriminate].
  intros [= <- <- <-].
  destruct (Hl _ _ _ eq_refl) as (H1 & H2 & H3 & H4 & H5).
  destruct (Hlw _ _ _ eq_refl) as (H6 & H7).
  simpl. rewrite extract_results_app, forallb_app, write_calls_app, mkdir_calls_app.
  simpl. rewrite !app_nil_r, andb_true_r.
  simpl in H3, H4, H5. rewrite Z.add_0_l in H3, H4. done.
Qed.

Lemma extract_directory_raised fs input_dir output_dir w e w' tr :
  extract_directory env fs input_dir output_dir w = (Raised e, w', tr) ->
  exists tr0 ev,
    tr = tr0 ++ [ev] /\ ev_exn ev = Some e /\ forallb ev_ok tr0 = true.
Proof.
  run_dir. destruct (env_init env input_dir w) as [[[]|e0] w0].
  2:{ intros [= <- <- <-]. by exists [], (EvInit input_dir (Raised e0)). }
  pose proof (supported_files_below fs input_dir) as Hb.
  pose proof (loop_raised env input_dir output_dir
                (length (supported_files fs input_dir)) _ Hb 1%nat
                empty_report w0) as Hl.
  destruct (supported_files fs input_dir) as [|p found] eqn:Hfound;
    [discriminate|].
  destruct (loop env _ _ _ _ _ _ _) as [[[r1|e1] w1] t1]; [discriminate|].
  intros [= <- <- <-].
  destruct (Hl _ _ _ eq_refl) as (tr0 & ev & -> & Hev & Hok).
  exists ([EvInit input_dir (Returned ()); EvLog INFO (MsgFound (length (p :: found)))] ++ tr0), ev.
  split_and!; [by rewrite <- app_assoc | done | by rewrite forallb_app, Hok].
Qed.

(** A run returns a report exactly when none of its calls raised. *)
Lemma extract_directory_returns_iff fs input_dir output_dir w :
  returns (outcome (extract_directory env fs input_dir output_dir w)) =
  forallb ev_ok (trace (extract_directory env fs input_dir output_dir w)).
Proof.
  destruct (extract_directory env fs input_dir output_dir w)
    as [[[r|e] w'] tr] eqn:Hrun; unfold outcome, trace; simpl.
  - by apply extract_directory_returned in Hrun as (_ & -> & _).
  - apply extract_directory_raised in Hrun as (tr0 & ev & -> & Hev & _).
    by rewrite (raised_trace_not_ok _ _ _ Hev).
Qed.

End DirectoryLemmas.

(** ** The single-item pipeline *)

Section SingleFile.

Context {W : Type} (env : Env W).

Ltac run_single :=
  unfold extract_single_file, bind, TextExtractor, extract_text, mkdir,
    write_text, log, emit, call, lift, ret, outcome, trace.

(** What the pipeline does once the extractor has been built and has
    answered [d]: nothing more when [d] reports an error or has no text to
    save; otherwise it creates the parent directory and, if that worked,
    writes the text. *)
Lemma extract_single_file_after_extract p out w w0 w1 d :
  env_init env (parent p) w = (Returned tt, w0) ->
  env_extract env p w0 = (Returned d, w1) ->
  let run := extract_single_file env p (Some out) w in
  if saves d then
    mkdir_calls (trace run) = [parent out] /\
    (forall w2, env_mkdir env (parent out) w1 = (Returned tt, w2) ->
                write_calls (trace run) = [(out, dict_get d "text")])
  else
    outcome run = Returned d /\
    mkdir_calls (trace run) = [] /\ write_calls (trace run) = [].
Proof.
  intros Hinit Hext. run_single. rewrite Hinit, Hext.
  unfold saves, failed.
  destruct (truthy (dict_get d "error")) eqn:Herr; simpl negb; simpl andb.
  { rewrite truthy_get_index by done. done. }
  destruct (truthy (dict_get d "text")) eqn:Htext; simpl; [|done].
  rewrite truthy_get_index by done.
  destruct (env_mkdir env (parent out) w1) as [[[]|e3] w2] eqn:Hmk.
  2:{ split; [done|]. intros ? [=]. }
  destruct (dict_get d "text") as [| b | z | s];
    try destruct (env_write env out _ w2) as [[[]|e4] w3]; done.
Qed.

End SingleFile.

(** C1, as the code has it: the single-item pipeline has no handler.  It
    returns the dictionary the extractor gave it, an error reported by the
    extractor being carried in that dictionary, exactly when none of the
    calls it makes raises; when a call raises (the extractor's constructor,
    [extract_text], [mkdir] or [write_text]), that exception is the
    pipeline's outcome and ends it at that call.  In particular, when the
    extractor is built and answers with a result that reports an error, the
    pipeline returns that result. *)
Theorem extract_single_file_outcome {W} (env : Env W) (p : Path)
    (out : option Path) (w : W) :
  returns (outcome (extract_single_file env p out w)) =
    forallb ev_ok (trace (extract_single_file env p out w)) /\
  match outcome (extract_single_file env p out w) with
  | Returned d => extract_results (trace (extract_single_file env p out w)) = [(p, d)]
  | Raised e =>
      exists tr0 ev,
        trace (extract_single_file env p out w) = tr0 ++ [ev] /\
        ev_exn ev = Some e /\ forallb ev_ok tr0 = true
  end /\
  (forall w0 w1 d,
     env_init env (parent p) w = (Returned tt, w0) ->
     env_extract env p w0 = (Returned d, w1) ->
     failed d = true ->
     outcome (extract_single_file env p out w) = Returned d).
Proof.
  assert (Hreported : forall w0 w1 d,
             env_init env (parent p) w = (Returned tt, w0) ->
             env_extract env p w0 = (Returned d, w1) ->
             failed d = true ->
             outcome (extract_single_file env p out w) = Returned d).
  { intros w0 w1 d Hinit Hext Hf.
    unfold extract_single_file, bind, TextExtractor, extract_text, log, emit,
      call, lift, ret, outcome.
    rewrite Hinit, Hext. unfold failed in Hf. rewrite Hf.
    by rewrite truthy_get_index. }
  refine ((fun H => conj (proj1 H) (conj (proj2 H) Hreported)) _).
  clear Hreported.
  unfold extract_single_file, bind, TextExtractor, extract_text, mkdir,
  write_text, log, emit, call, lift, ret, outcome, trace.
  destruct (env_init env (parent p) w) as [[[]|e0] w0].
  2:{ split; [done|]. by eexists [], _. }
  destruct (env_extract env p w0) as [[d|e1] w1].
  2:{ split; [done|]. by eexists [_; _], _. }
  destruct (truthy (dict_get d "error")) eqn:Herr.
  { rewrite truthy_get_index by done. done. }
  destruct out as [out|]; [|done].
  destruct (truthy (dict_get d "text")) eqn:Htext; [|done].
  rewrite truthy_get_index by done.
  destruct (env_mkdir env (parent out) w1) as [[[]|e3] w2].
  2:{ split; [done|]. by eexists [_; _; _; _], _. }
  destruct (dict_get d "text") as [| b | z | s];
    try destruct (env_write env out _ w2) as [[[]|e4] w3];
    try done; split; try done; by eexists [_; _; _; _; _], _.
Qed.

Lemma extract_single_file_outcome_witness :
  outcome (extract_single_file Sample.env ["docs"; "c.xlsx"] None tt)
  = Returned (Sample.err_dict "corrupt archive").
Proof.
  apply (proj2 (proj2 (extract_single_file_outcome Sample.env ["docs"; "c.xlsx"]
                         None tt)) tt tt);
    vm_compute; reflexivity.
Defined.

(** C1 fails as stated: an exception raised by the extractor, and one raised
    while writing the output, both leave the pipeline. *)
Lemma extract_single_file_raises :
  outcome (extract_single_file Sample.env ["docs"; "e.zip"] None tt)
    = Raised (RuntimeError "bad zip file") /\
  outcome (extract_single_file Sample.readonly_env ["report.docx"]
             (Some ["out"; "report.txt"]) tt)
    = Raised (OSError "Permission denied").
Proof. split; vm_compute; reflexivity. Qed.

(** C2 fails as stated: an extraction that succeeds with the empty string
    as its text writes nothing, although an output path was given. *)
Lemma empty_text_not_written :
  outcome (extract_single_file Sample.env ["empty.docx"]
             (Some ["out"; "empty.txt"]) tt)
    = Returned (Sample.ok_dict "" 0 0) /\
  Sample.ok_dict "" 0 0 !! "text" = Some (VStr "") /\
  Sample.ok_dict "" 0 0 !! "error" = None /\
  mkdir_calls (trace (extract_single_file Sample.env ["empty.docx"]
                        (Some ["out"; "empty.txt"]) tt)) = [] /\
  write_calls (trace (extract_single_file Sample.env ["empty.docx"]
                        (Some ["out"; "empty.txt"]) tt)) = [].
Proof. split_and!; vm_compute; reflexivity. Qed.

Lemma artifact_texts (input_dir out_dir : Path) (ds : list (Path * Dict)) :
  List.map snd (omap (artifact input_dir (Some out_dir)) ds)
  = List.map (fun pd => dict_get (snd pd) "text")
      (List.filter (fun pd => saves (snd pd)) ds).
Proof.
  induction ds as [|[p d] ds IH]; [done|].
  cbn [omap list_omap List.filter]. unfold artifact at 1. cbn [fst snd].
  destruct (saves d); cbn [List.map snd]; by rewrite <- IH.
Qed.

(** C2, as the code has it: with an output destination, the text is saved
    when the result reports no error and its text is non-empty (the parent
    directory is created first, and the text is written if that did not
    raise); when the result reports an error, or its text is absent or
    empty, no directory is created and nothing is written.  In a batch run
    that returns, the files written are those of the results that report no
    error and have a non-empty text. *)
Theorem text_saved_when_nonempty {W} (env : Env W) :
  (forall p out w w0 w1 d,
     env_init env (parent p) w = (Returned tt, w0) ->
     env_extract env p w0 = (Returned d, w1) ->
     if saves d then
       mkdir_calls (trace (extract_single_file env p (Some out) w)) = [parent out] /\
       (forall w2,
          env_mkdir env (parent out) w1 = (Returned tt, w2) ->
          write_calls (trace (extract_single_file env p (Some out) w))
            = [(out, dict_get d "text")])
     else
       outcome (extract_single_file env p (Some out) w) = Returned d /\
       mkdir_calls (trace (extract_single_file env p (Some out) w)) = [] /\
       write_calls (trace (extract_single_file env p (Some out) w)) = []) /\
  (forall fs input_dir out_dir w r,
     outcome (extract_directory env fs input_dir (Some out_dir) w) = Returned r ->
     List.map snd (written (trace (extract_directory env fs input_dir (Some out_dir) w)))
     = List.map (fun pd => dict_get (snd pd) "text")
         (List.filter (fun pd => saves (snd pd))
            (extract_results (trace (extract_directory env fs input_dir (Some out_dir) w))))).
Proof.
  split.
  - intros p out w w0 w1 d Hinit Hext.
    apply (extract_single_file_after_extract env p out w w0 w1 d Hinit Hext).
  - intros fs input_dir out_dir w r Hrun.
    destruct (extract_directory env fs input_dir (Some out_dir) w)
      as [[o w'] tr] eqn:Hdir. unfold outcome, trace in *. simpl in *. subst o.
    apply extract_directory_returned in Hdir as (_ & Hok & _ & _ & _ & Hw & _).
    rewrite (written_all _ Hok), Hw. apply artifact_texts.
Qed.

Lemma text_saved_when_nonempty_witness :
  (mkdir_calls (trace (extract_single_file Sample.env ["report.docx"]
                         (Some ["out"; "report.txt"]) tt)) = [["out"]] /\
   write_calls (trace (extract_single_file Sample.env ["report.docx"]
                         (Some ["out"; "report.txt"]) tt))
     = [(["out"; "report.txt"], VStr "Q1 results")]) /\
  List.map snd (written (trace (extract_directory Sample.env Sample.tree ["docs"]
                                  (Some ["out"]) tt)))
    = [VStr "Hello world"; VStr "Deep"].
Proof.
  destruct (text_saved_when_nonempty Sample.env) as [Hsingle Hbatch]. split.
  - pose proof (Hsingle ["report.docx"] ["out"; "report.txt"] tt tt tt
                  (Sample.ok_dict "Q1 results" 10 2) eq_refl eq_refl) as H.
    change (saves (Sample.ok_dict "Q1 results" 10 2)) with true in H.
    destruct H as [Hm Hw]. split; [exact Hm | exact (Hw tt eq_refl)].
  - rewrite (Hbatch Sample.tree ["docs"] ["out"] tt
               {| processed := 2; errors := 1;
                  files := List.map record_of
                    (extract_results (trace (extract_directory Sample.env
                       Sample.tree ["docs"] (Some ["out"]) tt))) |}).
    + vm_compute. reflexivity.
    + vm_compute. reflexivity.
Defined.

(** ** The batch walker *)

Lemma record_of_matches (pd : Path * Dict) : record_matches pd (record_of pd).
Proof.
  destruct pd as [p d]. unfold record_matches, record_of, file_result_of.
  cbn [fst snd]. unfold dict_get_default.
  assert (Hflag : forall b : bool, negb b = true <-> b = false)
    by (intros []; simpl; split; congruence).
  destruct (failed d) eqn:Hf.
  - split_and!; try (by simplify_map_eq).
    + exists (negb (failed d)). split; [by simplify_map_eq | by rewrite Hf].
    + simplify_map_eq. unfold failed, dict_get in *.
      destruct (d !! "error"); [done | discriminate].
  - split_and!; try (by simplify_map_eq).
    exists (negb (failed d)). split; [by simplify_map_eq | by rewrite Hf].
Qed.


(** C3: the counters of a batch report add up to the number of its file
    records.  This holds of the empty report the loop starts from; every
    iteration that completes appends one record and adds one to exactly one
    of the two counters, so it keeps the equation; and it holds of the
    report returned, which has one record for each candidate path. *)
Theorem counts_match_records {W} (env : Env W) :
  counts_match empty_report /\
  (forall input_dir output_dir total results idx p w r w' tr,
     loop_body env input_dir output_dir total results idx p w = (Returned r, w', tr) ->
     length (files r) = S (length (files results)) /\
     (processed r = processed results + 1 /\ errors r = errors results \/
      processed r = processed results /\ errors r = errors results + 1) /\
     (counts_match results -> counts_match r)) /\
  (forall fs input_dir output_dir w r,
     outcome (extract_directory env fs input_dir output_dir w) = Returned r ->
     counts_match r /\
     length (files r) = length (supported_files fs input_dir)).
Proof.
  split_and!.
  - reflexivity.
  - intros input_dir output_dir total results idx p w r w' tr Hbody.
    apply loop_body_returned in Hbody as (d & _ & _ & Hp & He & Hf).
    unfold counts_match. rewrite Hp, He, Hf, length_app. simpl.
    destruct (failed d); split_and!; lia.
  - intros fs input_dir output_dir w r Hrun.
    destruct (extract_directory env fs input_dir output_dir w)
      as [[o w'] tr] eqn:Hdir. unfold outcome in Hrun. simpl in Hrun. subst o.
    apply extract_directory_returned in Hdir as (Hd & _ & Hp & He & Hf & _).
    unfold counts_match. rewrite Hp, He, Hf, <- Hd, !length_map.
    split; [apply successes_failures | done].
Qed.

Lemma counts_match_records_witness :
  counts_match {| processed := 2; errors := 1;
                  files := List.map record_of
                    (extract_results (trace (extract_directory Sample.env
                       Sample.tree ["docs"] (Some ["out"]) tt))) |}.
Proof.
  apply (proj2 (proj2 (counts_match_records Sample.env))
           Sample.tree ["docs"] (Some ["out"]) tt).
  vm_compute. reflexivity.
Defined.

(** C9, as the code has it: the report of a batch run has one file record
    for each candidate, in walk order, and each record summarises the
    result the extractor returned for that candidate.  It keeps the source
    path.  Its success flag is true exactly when the error of the result is
    absent or falsy ([None] or the empty string); the error is copied into
    the record exactly when the flag is false.  Its counts are those of the
    result, whether or not it failed, 0 standing for a count the result
    does not have. *)
Theorem file_records_summarise_results {W} (env : Env W) fs input_dir output_dir w r :
  outcome (extract_directory env fs input_dir output_dir w) = Returned r ->
  List.map fst
    (extract_results (trace (extract_directory env fs input_dir output_dir w)))
  = supported_files fs input_dir /\
  Forall2 record_matches
    (extract_results (trace (extract_directory env fs input_dir output_dir w)))
    (files r).
Proof.
  intros Hrun.
  destruct (extract_directory env fs input_dir output_dir w)
    as [[o w'] tr] eqn:Hdir. unfold outcome, trace in *. simpl in *. subst o.
  apply extract_directory_returned in Hdir as (Hd & _ & _ & _ & -> & _).
  split; [exact Hd|]. clear Hd.
  induction (extract_results tr) as [|pd ds IH]; constructor;
    [apply record_of_matches | exact IH].
Qed.

Lemma file_records_summarise_results_witness :
  [["docs"; "a.pdf"]; ["docs"; "c.xlsx"]; ["docs"; "sub"; "d.DOCX"]]
  = supported_files Sample.tree ["docs"] /\
  Forall2 record_matches
    [(["docs"; "a.pdf"], Sample.ok_dict "Hello world" 11 2);
     (["docs"; "c.xlsx"], Sample.err_dict "corrupt archive");
     (["docs"; "sub"; "d.DOCX"], Sample.ok_dict "Deep" 4 1)]
    (files Sample.report_docs).
Proof.
  exact (file_records_summarise_results Sample.env Sample.tree ["docs"] None tt
           Sample.report_docs ltac:(vm_compute; reflexivity)).
Defined.

(** C9 fails as stated: a result that carries an empty error message is
    recorded as a success and its error is dropped, and a result that
    reports an error keeps the counts it carries (7 and 2) instead of 0. *)
Lemma record_flags_follow_truthiness :
  Sample.odd_extractor ["docs"; "blank.pdf"]
  = Returned {[ "error" := VStr ""; "text" := VStr "body";
                "char_count" := VInt 4; "word_count" := VInt 1 ]} /\
  Sample.odd_extractor ["docs"; "partial.pdf"]
  = Returned {[ "error" := VStr "truncated";
                "char_count" := VInt 7; "word_count" := VInt 2 ]} /\
  outcome (extract_directory Sample.odd_env Sample.tree_odd ["docs"] None tt)
  = Returned
      {| processed := 1;
         errors := 1;
         files :=
           [ {[ "file" := VStr "docs/blank.pdf"; "success" := VBool true;
                "chars" := VInt 4; "words" := VInt 1 ]};
             {[ "file" := VStr "docs/partial.pdf"; "success" := VBool false;
                "chars" := VInt 7; "words" := VInt 2;
                "error" := VStr "truncated" ]} ] |}.
Proof. split_and!; vm_compute; reflexivity. Qed.





Lemma mirrored_below (input_dir out_dir segs : Path) (nm : string) :
  mirrored input_dir out_dir (input_dir ++ segs ++ [nm])
  = out_dir ++ segs ++ [stem nm +:+ ".txt"].
Proof.
  unfold mirrored. rewrite drop_app_length, removelast_last.
  by rewrite (app_assoc input_dir), name_snoc.
Qed.

(** C7, as the code has it: in a batch run with an output root that returns
    a report, the files written are, in order, those of the results that
    report no error and have a non-empty text; the file for the source path
    [input_dir/segs/nm] is [out_dir/segs/stem.txt], where [nm] is [stem]
    followed by its suffix: every intermediate directory is kept and the
    suffix is replaced by [.txt].  A result that reports an error, and a
    result whose text is empty or absent, give no file. *)
Theorem outputs_mirror_input_tree {W} (env : Env W) fs input_dir out_dir w r :
  outcome (extract_directory env fs input_dir (Some out_dir) w) = Returned r ->
  written (trace (extract_directory env fs input_dir (Some out_dir) w))
    = omap (artifact input_dir (Some out_dir))
        (extract_results (trace (extract_directory env fs input_dir (Some out_dir) w))) /\
  Forall (fun pd =>
            exists segs nm,
              fst pd = input_dir ++ segs ++ [nm] /\
              name_suffix nm <> "" /\
              nm = stem nm +:+ name_suffix nm /\
              artifact input_dir (Some out_dir) pd
              = if saves (snd pd)
                then Some (out_dir ++ segs ++ [stem nm +:+ ".txt"],
                           dict_get (snd pd) "text")
                else None)
         (extract_results (trace (extract_directory env fs input_dir (Some out_dir) w))) /\
  Forall (fun pd => failed (snd pd) = true ->
                    artifact input_dir (Some out_dir) pd = None)
         (extract_results (trace (extract_directory env fs input_dir (Some out_dir) w))).
Proof.
  intros Hrun.
  destruct (extract_directory env fs input_dir (Some out_dir) w)
    as [[o w'] tr] eqn:Hdir. unfold outcome, trace in *. simpl in *. subst o.
  apply extract_directory_returned in Hdir as (Hd & Hok & _ & _ & _ & Hw & _).
  split_and!.
  - by rewrite (written_all _ Hok).
  - pose proof (supported_files_below fs input_dir) as Hb. rewrite <- Hd in Hb.
    apply List.Forall_forall. intros [p d] Hin.
    rewrite List.Forall_forall in Hb.
    destruct (Hb p) as (segs & nm & -> & Hs).
    { apply in_map_iff. by exists (p, d). }
    exists segs, nm. unfold artifact. cbn [fst snd].
    rewrite mirrored_below, stem_suffix. done.
  - apply List.Forall_forall. intros [p d] _. unfold artifact, saves. cbn [snd].
    by intros ->.
Qed.

Lemma outputs_mirror_input_tree_witness :
  written (trace (extract_directory Sample.env Sample.tree ["docs"] (Some ["out"]) tt))
  = [(["out"; "a.txt"], VStr "Hello world");
     (["out"; "sub"; "d.txt"], VStr "Deep")].
Proof.
  rewrite (proj1 (outputs_mirror_input_tree Sample.env Sample.tree ["docs"] ["out"] tt
             {| processed := 2; errors := 1;
                files := List.map record_of
                  (extract_results (trace (extract_directory Sample.env
                     Sample.tree ["docs"] (Some ["out"]) tt))) |}
             ltac:(vm_compute; reflexivity))).
  vm_compute. reflexivity.
Defined.

(** C7 fails as stated: [docs/empty.docx] is extracted successfully, with
    an empty text, and is recorded as a success, but no file is written
    for it under the output root; only [docs/a.pdf] gets one. *)
Lemma empty_text_leaves_no_artifact :
  outcome (extract_directory Sample.env Sample.tree_blank ["docs"] (Some ["out"]) tt)
  = Returned
      {| processed := 2;
         errors := 0;
         files :=
           [ {[ "file" := VStr "docs/a.pdf"; "success" := VBool true;
                "chars" := VInt 11; "words" := VInt 2 ]};
             {[ "file" := VStr "docs/empty.docx"; "success" := VBool true;
                "chars" := VInt 0; "words" := VInt 0 ]} ] |} /\
  write_calls (trace (extract_directory Sample.env Sample.tree_blank ["docs"]
                        (Some ["out"]) tt))
  = [(["out"; "a.txt"], VStr "Hello world")] /\
  mkdir_calls (trace (extract_directory Sample.env Sample.tree_blank ["docs"]
                        (Some ["out"]) tt))
  = [["out"]].
Proof. split_and!; vm_compute; reflexivity. Qed.

(** C8, as the code has it: a failure that the extractor reports in its
    result does not stop the walk.  The extractor is called on the
    candidates in walk order, at most once each; the run returns a report
    exactly when no call raised, and then the extractor has been called
    exactly once on every candidate and the report has a record for each.
    An exception raised by a call is not handled: it ends the walk at that
    call. *)
Theorem walk_covers_candidates {W} (env : Env W) fs input_dir output_dir w :
  extract_calls (trace (extract_directory env fs input_dir output_dir w))
    `prefix_of` supported_files fs input_dir /\
  returns (outcome (extract_directory env fs input_dir output_dir w))
    = forallb ev_ok (trace (extract_directory env fs input_dir output_dir w)) /\
  match outcome (extract_directory env fs input_dir output_dir w) with
  | Returned r =>
      extract_calls (trace (extract_directory env fs input_dir output_dir w))
        = supported_files fs input_dir /\
      length (files r) = length (supported_files fs input_dir) /\
      errors r = failures (extract_results
                   (trace (extract_directory env fs input_dir output_dir w)))
  | Raised e =>
      exists tr0 ev,
        trace (extract_directory env fs input_dir output_dir w) = tr0 ++ [ev] /\
        ev_exn ev = Some e /\ forallb ev_ok tr0 = true
  end.
Proof.
  split_and!.
  - apply extract_directory_calls_prefix.
  - apply extract_directory_returns_iff.
  - destruct (extract_directory env fs input_dir output_dir w)
      as [[[r|e] w'] tr] eqn:Hdir; unfold outcome, trace; simpl.
    + apply extract_directory_returned in Hdir as (Hd & Hok & _ & He & Hf & _).
      rewrite <- (extract_results_calls _ Hok), Hf, <- Hd, !length_map. done.
    + by apply extract_directory_raised in Hdir.
Qed.

(** C8 fails as stated: when the extractor raises on the first of two
    candidates, the run ends there and the second is never extracted. *)
Lemma walk_aborts_on_exception :
  supported_files Sample.tree_zip ["docs"] = [["docs"; "e.zip"]; ["docs"; "a.pdf"]] /\
  outcome (extract_directory Sample.env Sample.tree_zip ["docs"] None tt)
    = Raised (RuntimeError "bad zip file") /\
  extract_calls (trace (extract_directory Sample.env Sample.tree_zip ["docs"] None tt))
    = [["docs"; "e.zip"]].
Proof. split_and!; vm_compute; reflexivity. Qed.

(** C4 on a tree whose only entry with a supported suffix is a directory:
    the report counts one outcome, and no regular file with a supported
    suffix exists below the root. *)
Theorem directory_counted_in_report :
  is_dir Sample.tree_dir ["docs"; "reports.pdf"] = true /\
  supported_regular_files Sample.tree_dir ["docs"] = [] /\
  outcome (extract_directory Sample.env Sample.tree_dir ["docs"] None tt)
    = Returned {| processed := 0; errors := 1;
                  files := [record_of (["docs"; "reports.pdf"],
                                       Sample.err_dict "Is a directory")] |}.
Proof. split_and!; vm_compute; reflexivity. Qed.


(** ** The exit status *)

Section Main.

Context {W : Type} (env : Env W).





End Main.

Lemma is_file_exists fs p : is_file fs p = true -> path_exists fs p = true.
Proof. unfold is_file, path_exists. by destruct (resolve fs p). Qed.

Lemma is_dir_exists fs p : is_dir fs p = true -> path_exists fs p = true.
Proof. unfold is_dir, path_exists. by destruct (resolve fs p). Qed.

Lemma is_dir_not_file fs p : is_dir fs p = true -> is_file fs p = false.
Proof. unfold is_dir, is_file. by destruct (resolve fs p) as [[]|]. Qed.




(** * Further properties of the orchestration *)

Lemma init_calls_app t1 t2 : init_calls (t1 ++ t2) = init_calls t1 ++ init_calls t2.
Proof.
  induction t1 as [|ev t1 IH]; [done|].
  destruct ev; simpl; rewrite ?IH; done.
Qed.

Lemma prints_app t1 t2 : prints (t1 ++ t2) = prints t1 ++ prints t2.
Proof.
  induction t1 as [|ev t1 IH]; [done|].
  destruct ev; simpl; rewrite ?IH; done.
Qed.

Lemma logged_app t1 t2 : logged (t1 ++ t2) = logged t1 ++ logged t2.
Proof.
  induction t1 as [|ev t1 IH]; [done|].
  destruct ev; simpl; rewrite ?IH; done.
Qed.

Lemma calls_app t1 t2 : calls (t1 ++ t2) = calls t1 ++ calls t2.
Proof. apply List.filter_app. Qed.

(** Runs the loop body symbolically: one goal for each way through it. *)
Ltac body_cases :=
  unfold loop_body, bind, log, emit, extract_text, mkdir, write_text, call,
    lift, ret;
  repeat match goal with
    | |- context [env_extract ?env ?p ?w] =>
        let H := fresh "Hext" in
        destruct (env_extract env p w) as [[?d|?e] ?w1] eqn:H
    | |- context [truthy (dict_get ?d "error")] =>
        let H := fresh "Herr" in
        destruct (truthy (dict_get d "error")) eqn:H;
        [rewrite (truthy_get_index d "error" H)|]
    | |- context [match ?o with Some _ => _ | None => _ end] =>
        is_var o; destruct o
    | |- context [truthy (dict_get ?d "text")] =>
        let H := fresh "Htext" in
        destruct (truthy (dict_get d "text")) eqn:H;
        [rewrite (truthy_get_index d "text" H)|]
    | |- context [relative_to ?p ?i] => destruct (relative_to p i)
    | |- context [with_suffix ?p ?s] => destruct (with_suffix p s)
    | |- context [env_mkdir ?env ?p ?w] =>
        let H := fresh "Hmk" in
        destruct (env_mkdir env p w) as [[[]|?e] ?w2] eqn:H
    | |- context [match dict_get ?d "text" with _ => _ end] =>
        let H := fresh "Hval" in
        destruct (dict_get d "text") eqn:H
    | |- context [env_write ?env ?p ?s ?w] =>
        let H := fresh "Hwr" in
        destruct (env_write env p s w) as [[[]|?e] ?w3] eqn:H
    end.

Section WithoutOutput.

Context {W : Type} (env : Env W).

Lemma loop_body_no_output input_dir total results idx p w :
  mkdir_calls (trace (loop_body env input_dir None total results idx p w)) = [] /\
  write_calls (trace (loop_body env input_dir None total results idx p w)) = [] /\
  init_calls (trace (loop_body env input_dir None total results idx p w)) = [].
Proof. unfold trace. body_cases; done. Qed.

Lemma loop_body_no_init input_dir output_dir total results idx p w :
  init_calls (trace (loop_body env input_dir output_dir total results idx p w)) = [] /\
  prints (trace (loop_body env input_dir output_dir total results idx p w)) = [].
Proof. unfold trace. body_cases; done. Qed.

Lemma loop_no_output input_dir total todo :
  forall idx results w,
    mkdir_calls (trace (loop env input_dir None total idx todo results w)) = [] /\
    write_calls (trace (loop env input_dir None total idx todo results w)) = [].
Proof.
  induction todo as [|p todo IH]; intros idx results w; [done|].
  simpl. unfold bind.
  pose proof (loop_body_no_output input_dir total results idx p w) as (Hm & Hw & _).
  destruct (loop_body env input_dir None total results idx p w)
    as [[[r1|e1] w1] t1]; unfold trace in *; simpl in *; [|done].
  specialize (IH (S idx) r1 w1).
  destruct (loop env input_dir None total (S idx) todo r1 w1) as [[o2 w2] t2].
  simpl in *. rewrite mkdir_calls_app, write_calls_app, Hm, Hw. done.
Qed.

Lemma loop_no_init input_dir output_dir total todo :
  forall idx results w,
    init_calls (trace (loop env input_dir output_dir total idx todo results w)) = [] /\
    prints (trace (loop env input_dir output_dir total idx todo results w)) = [].
Proof.
  induction todo as [|p todo IH]; intros idx results w; [done|].
  simpl. unfold bind.
  pose proof (loop_body_no_init input_dir output_dir total results idx p w) as (Hi & Hp).
  destruct (loop_body env input_dir output_dir total results idx p w)
    as [[[r1|e1] w1] t1]; unfold trace in *; simpl in *; [|done].
  specialize (IH (S idx) r1 w1).
  destruct (loop env input_dir output_dir total (S idx) todo r1 w1) as [[o2 w2] t2].
  simpl in *. rewrite init_calls_app, prints_app, Hi, Hp. done.
Qed.

Lemma extract_single_file_no_output p w :
  mkdir_calls (trace (extract_single_file env p None w)) = [] /\
  write_calls (trace (extract_single_file env p None w)) = [].
Proof.
  unfold extract_single_file, bind, TextExtractor, extract_text, log, emit, call,
    lift, ret, trace.
  destruct (env_init env (parent p) w) as [[[]|e0] w0]; [|done].
  destruct (env_extract env p w0) as [[d|e1] w1]; [|done].
  destruct (truthy (dict_get d "error")) eqn:Herr; [|done].
  by rewrite truthy_get_index.
Qed.

Lemma extract_directory_no_output fs input_dir w :
  mkdir_calls (trace (extract_directory env fs input_dir None w)) = [] /\
  write_calls (trace (extract_directory env fs input_dir None w)) = [].
Proof.
  unfold extract_directory, bind, TextExtractor, log, emit, call, ret.
  destruct (env_init env input_dir w) as [[[]|e0] w0]; [|done].
  pose proof (loop_no_output input_dir (length (supported_files fs input_dir))
                (supported_files fs input_dir) 1%nat empty_report w0) as Hl.
  destruct (supported_files fs input_dir) as [|p found]; [done|].
  destruct (loop env _ _ _ _ _ _ _) as [[[r|e] w1] t1]; unfold trace in *;
    simpl in *; [|done].
  by rewrite mkdir_calls_app, write_calls_app, !app_nil_r.
Qed.

End WithoutOutput.

Section MainRuns.

Context {W : Type} (env : Env W).

(** [main] on a file: the run of the pipeline, followed by the printing of
    the text when it is asked for and there is one. *)
Lemma main_file_run fs input out pt w :
  is_file fs input = true ->
  main env fs input out pt w
  = match extract_single_file env input out w with
    | (Returned d, w1, t1) =>
        (Returned (if failed d then 1 else 0), w1,
         t1 ++ (if pt && truthy (dict_get d "text")
                then List.map EvPrint (console_output d) else []))
    | (Raised e, w1, t1) => (Raised e, w1, t1)
    end.
Proof.
  intros Hfile. unfold main.
  rewrite (is_file_exists _ _ Hfile), Hfile. cbn [negb]. unfold bind at 1.
  destruct (extract_single_file env input out w) as [[[d|e] w1] t1]; [|done].
  unfold bind, emit, lift, ret, failed, console_output.
  destruct (pt && truthy (dict_get d "text")) eqn:Hp.
  - apply andb_true_iff in Hp as [_ Ht]. rewrite truthy_get_index by done.
    simpl. by destruct (truthy (dict_get d "error")).
  - simpl. rewrite app_nil_r. by destruct (truthy (dict_get d "error")).
Qed.

(** [main] on a directory: the run of the batch, and nothing else. *)
Lemma main_dir_run fs input out pt w :
  is_dir fs input = true ->
  main env fs input out pt w
  = match extract_directory env fs input out w with
    | (Returned r, w1, t1) => (Returned (if errors r =? 0 then 0 else 1), w1, t1)
    | (Raised e, w1, t1) => (Raised e, w1, t1)
    end.
Proof.
  intros Hdir. unfold main.
  rewrite (is_dir_exists _ _ Hdir), (is_dir_not_file _ _ Hdir), Hdir. cbn [negb].
  unfold bind, ret.
  destruct (extract_directory env fs input out w) as [[[r|e] w1] t1]; [|done].
  by rewrite app_nil_r.
Qed.

(** [main] on anything else: one logged error, and no call. *)
Lemma main_other_run fs input out pt w :
  is_file fs input = false -> is_dir fs input = false ->
  main env fs input out pt w
  = (Returned 1, w,
     [EvLog ERROR (if path_exists fs input then MsgInvalid input
                   else MsgNotExist input)]).
Proof.
  intros Hfile Hdir. unfold main, bind, log, emit, ret.
  rewrite Hfile, Hdir. by destruct (path_exists fs input).
Qed.

End MainRuns.

(** X1: without an output path nothing is created and nothing is written,
    whatever the extractor answers and however the run ends: this holds of
    the single-item pipeline, of the batch walker, and of [main] in every
    mode. *)
Theorem nothing_written_without_output {W} (env : Env W) (fs : Node) :
  (forall p w,
     mkdir_calls (trace (extract_single_file env p None w)) = [] /\
     write_calls (trace (extract_single_file env p None w)) = []) /\
  (forall input_dir w,
     mkdir_calls (trace (extract_directory env fs input_dir None w)) = [] /\
     write_calls (trace (extract_directory env fs input_dir None w)) = []) /\
  (forall input pt w,
     mkdir_calls (trace (main env fs input None pt w)) = [] /\
     write_calls (trace (main env fs input None pt w)) = []).
Proof.
  split_and!.
  - apply extract_single_file_no_output.
  - apply extract_directory_no_output.
  - intros input pt w.
    destruct (is_file fs input) eqn:Hfile.
    { rewrite (main_file_run env fs input None pt w Hfile).
      pose proof (extract_single_file_no_output env input w) as [Hm Hw].
      destruct (extract_single_file env input None w) as [[[d|e] w1] t1];
        unfold trace in *; simpl in *; [|done].
      rewrite mkdir_calls_app, write_calls_app, Hm, Hw.
      by destruct (pt && truthy (dict_get d "text")). }
    destruct (is_dir fs input) eqn:Hdir.
    { rewrite (main_dir_run env fs input None pt w Hdir).
      pose proof (extract_directory_no_output env fs input w) as [Hm Hw].
      by destruct (extract_directory env fs input None w) as [[[r|e] w1] t1]. }
    by rewrite (main_other_run env fs input None pt w Hfile Hdir).
Qed.

(** X2: the single-item pipeline builds one extractor, on the directory
    that holds the file, and, once it is built, calls [extract_text]
    exactly once, on the file itself, whichever way the run continues; when
    the extractor cannot be built nothing is extracted. *)
Theorem single_file_extracts_once {W} (env : Env W) (p : Path)
    (out : option Path) (w : W) :
  init_calls (trace (extract_single_file env p out w)) = [parent p] /\
  extract_calls (trace (extract_single_file env p out w))
  = (if returns (fst (env_init env (parent p) w)) then [p] else []).
Proof.
  unfold extract_single_file, bind, TextExtractor, extract_text, mkdir,
    write_text, log, emit, call, lift, ret, trace.
  destruct (env_init env (parent p) w) as [[[]|e0] w0]; [|done].
  destruct (env_extract env p w0) as [[d|e1] w1]; [|done].
  destruct (truthy (dict_get d "error")) eqn:Herr.
  { by rewrite truthy_get_index. }
  destruct out as [out|]; [|done].
  destruct (truthy (dict_get d "text")) eqn:Htext; [|done].
  rewrite truthy_get_index by done.
  destruct (env_mkdir env (parent out) w1) as [[[]|e3] w2]; [|done].
  destruct (dict_get d "text") as [| b | z | s];
    try destruct (env_write env out _ w2) as [[[]|e4] w3]; done.
Qed.

(** X3: a batch builds the extractor once, on the input directory, and
    shares it between all the files; when it cannot be built the run ends
    with that exception before anything is logged, extracted or written. *)
Theorem batch_builds_extractor_once {W} (env : Env W) fs input_dir output_dir w :
  init_calls (trace (extract_directory env fs input_dir output_dir w)) = [input_dir] /\
  match env_init env input_dir w with
  | (Raised e, w0) =>
      extract_directory env fs input_dir output_dir w
      = (Raised e, w0, [EvInit input_dir (Raised e)])
  | (Returned _, _) =>
      exists tr, trace (extract_directory env fs input_dir output_dir w)
                 = EvInit input_dir (Returned tt) :: tr /\ init_calls tr = []
  end.
Proof.
  unfold extract_directory, bind, TextExtractor, log, emit, call, ret.
  destruct (env_init env input_dir w) as [[[]|e0] w0]; [|done].
  pose proof (loop_no_init env input_dir output_dir
                (length (supported_files fs input_dir))
                (supported_files fs input_dir) 1%nat empty_report w0) as [Hl _].
  destruct (supported_files fs input_dir) as [|p found].
  { split; [done|]. by eexists. }
  destruct (loop env _ _ _ _ _ _ _) as [[[r|e] w1] t1]; unfold trace in *;
    simpl in *.
  - rewrite init_calls_app, Hl. split; [done|]. eexists. split; [done|].
    simpl. by rewrite init_calls_app, Hl.
  - rewrite Hl. split; [done|]. eexists. split; [done|]. done.
Qed.

Lemma prints_map_EvPrint (vs : list PyVal) : prints (List.map EvPrint vs) = vs.
Proof. induction vs as [|v vs IH]; [done|]. simpl. by rewrite IH. Qed.

Lemma extract_single_file_no_print {W} (env : Env W) p out w :
  prints (trace (extract_single_file env p out w)) = [].
Proof.
  unfold extract_single_file, bind, TextExtractor, extract_text, mkdir,
    write_text, log, emit, call, lift, ret, trace.
  destruct (env_init env (parent p) w) as [[[]|e0] w0]; [|done].
  destruct (env_extract env p w0) as [[d|e1] w1]; [|done].
  destruct (truthy (dict_get d "error")) eqn:Herr.
  { by rewrite truthy_get_index. }
  destruct out as [out|]; [|done].
  destruct (truthy (dict_get d "text")) eqn:Htext; [|done].
  rewrite truthy_get_index by done.
  destruct (env_mkdir env (parent out) w1) as [[[]|e3] w2]; [|done].
  destruct (dict_get d "text") as [| b | z | s];
    try destruct (env_write env out _ w2) as [[[]|e4] w3]; done.
Qed.

Lemma extract_directory_no_print {W} (env : Env W) fs input_dir output_dir w :
  prints (trace (extract_directory env fs input_dir output_dir w)) = [].
Proof.
  unfold extract_directory, bind, TextExtractor, log, emit, call, ret.
  destruct (env_init env input_dir w) as [[[]|e0] w0]; [|done].
  pose proof (loop_no_init env input_dir output_dir
                (length (supported_files fs input_dir))
                (supported_files fs input_dir) 1%nat empty_report w0) as [_ Hl].
  destruct (supported_files fs input_dir) as [|p found]; [done|].
  destruct (loop env _ _ _ _ _ _ _) as [[[r|e] w1] t1]; unfold trace in *;
    simpl in *; [|done].
  by rewrite prints_app, Hl.
Qed.

(** X4: [main] prints the extracted text only for a single file, only with
    [--print-text], and only when the pipeline returned a result whose text
    is non-empty; it then prints it even if the result also reports an
    error.  For a directory, and for an invalid path, nothing is printed
    and the flag changes nothing in the run. *)
Theorem print_text_only_for_single_file {W} (env : Env W) fs input out pt w :
  (is_file fs input = true ->
   prints (trace (main env fs input out pt w))
   = match outcome (extract_single_file env input out w) with
     | Returned d =>
         if pt && truthy (dict_get d "text") then console_output d else []
     | Raised _ => []
     end) /\
  (is_file fs input = false ->
   prints (trace (main env fs input out pt w)) = [] /\
   main env fs input out pt w = main env fs input out (negb pt) w).
Proof.
  split.
  - intros Hfile. rewrite (main_file_run env fs input out pt w Hfile).
    pose proof (extract_single_file_no_print env input out w) as Hp.
    destruct (extract_single_file env input out w) as [[[d|e] w1] t1];
      unfold trace, outcome in *; simpl in *; [|done].
    rewrite prints_app, Hp.
    destruct (pt && truthy (dict_get d "text")); [|done].
    by rewrite ?prints_map_EvPrint.
  - intros Hfile. destruct (is_dir fs input) eqn:Hdir.
    + rewrite !(main_dir_run env fs input out _ w Hdir).
      pose proof (extract_directory_no_print env fs input out w) as Hp.
      by destruct (extract_directory env fs input out w) as [[[r|e] w1] t1].
    + by rewrite !(main_other_run env fs input out _ w Hfile Hdir).
Qed.

Lemma print_text_only_for_single_file_witness :
  prints (trace (main Sample.env Sample.tree ["report.docx"] None true tt))
  = console_output (Sample.ok_dict "Q1 results" 10 2) /\
  prints (trace (main Sample.env Sample.tree ["docs"] None true tt)) = [].
Proof.
  split.
  - rewrite (proj1 (print_text_only_for_single_file Sample.env Sample.tree
                      ["report.docx"] None true tt) eq_refl).
    vm_compute. reflexivity.
  - apply (proj2 (print_text_only_for_single_file Sample.env Sample.tree
                    ["docs"] None true tt) eq_refl).
Defined.

(** X5: [main] makes no call of its own: the calls of a run of [main] are
    those of the pipeline for a file, those of the batch for a directory,
    and none at all for a path that does not exist or is neither: the
    extractor is then never built and nothing is touched. *)
Theorem main_adds_no_calls {W} (env : Env W) fs input out pt w :
  calls (trace (main env fs input out pt w))
  = if is_file fs input
    then calls (trace (extract_single_file env input out w))
    else if is_dir fs input
    then calls (trace (extract_directory env fs input out w))
    else [].
Proof.
  destruct (is_file fs input) eqn:Hfile.
  { rewrite (main_file_run env fs input out pt w Hfile).
    destruct (extract_single_file env input out w) as [[[d|e] w1] t1];
      unfold trace; simpl; [|done].
    rewrite calls_app. destruct (pt && truthy (dict_get d "text")); simpl;
      by rewrite app_nil_r. }
  destruct (is_dir fs input) eqn:Hdir.
  { rewrite (main_dir_run env fs input out pt w Hdir).
    by destruct (extract_directory env fs input out w) as [[[r|e] w1] t1]. }
  by rewrite (main_other_run env fs input out pt w Hfile Hdir).
Qed.

(** ** The order of the calls in a batch *)

Section BatchCalls.

Context {W : Type} (env : Env W).

Lemma loop_body_calls_of input_dir output_dir total results idx p w r w' tr :
  below input_dir p ->
  loop_body env input_dir output_dir total results idx p w = (Returned r, w', tr) ->
  exists d, extract_results tr = [(p, d)] /\ calls tr = calls_of input_dir output_dir (p, d).
Proof.
  intros Hb.
  unfold loop_body, bind, log, emit, extract_text, mkdir, write_text, call,
    lift, ret, calls_of, artifact, saves, failed. cbn [fst snd].
  destruct (env_extract env p w) as [[d|e0] w1]; [|discriminate].
  destruct (truthy (dict_get d "error")) eqn:Herr.
  { rewrite truthy_get_index by done. intros [= <- <- <-].
    exists d. rewrite Herr. by destruct output_dir. }
  destruct output_dir as [out_dir|].
  2:{ intros [= <- <- <-]. by exists d. }
  destruct (truthy (dict_get d "text")) eqn:Htext.
  2:{ intros [= <- <- <-]. exists d. by rewrite Herr, Htext. }
  rewrite truthy_get_index by done.
  destruct (below_paths input_dir out_dir p Hb) as (rel & q & -> & -> & Hm).
  destruct (env_mkdir env _ w1) as [[[]|e3] w2]; [|discriminate].
  destruct (dict_get d "text") as [| b | z | s] eqn:Ht;
    try destruct (env_write env _ _ w2) as [[[]|e4] w3];
    try discriminate.
  intros [= <- <- <-]. exists d. rewrite Herr, Ht, Htext. simpl.
  by rewrite <- Hm.
Qed.

Lemma loop_calls input_dir output_dir total todo :
  Forall (below input_dir) todo ->
  forall idx results w r w' tr,
    loop env input_dir output_dir total idx todo results w = (Returned r, w', tr) ->
    calls tr = List.flat_map (calls_of input_dir output_dir) (extract_results tr).
Proof.
  induction 1 as [|p todo Hp _ IH]; intros idx results w r w' tr; simpl.
  { unfold ret. by intros [= <- <- <-]. }
  unfold bind.
  destruct (loop_body env input_dir output_dir total results idx p w)
    as [[[r1|e1] w1] t1] eqn:Hbody; [|discriminate].
  destruct (loop env input_dir output_dir total (S idx) todo r1 w1)
    as [[o2 w2] t2] eqn:Hloop.
  intros [= -> <- <-].
  apply (loop_body_calls_of _ _ _ _ _ _ _ _ _ _ Hp) in Hbody as (d & Hd & Hc).
  apply IH in Hloop.
  rewrite calls_app, extract_results_app, Hd, Hc, Hloop. done.
Qed.

End BatchCalls.

(** A batch, phase by phase: the extractor is built, the candidates are
    listed, the loop runs over them, and the summary is logged. *)
Lemma extract_directory_run {W} (env : Env W) fs input_dir output_dir w :
  extract_directory env fs input_dir output_dir w
  = match env_init env input_dir w with
    | (Raised e, w0) => (Raised e, w0, [EvInit input_dir (Raised e)])
    | (Returned _, w0) =>
        match supported_files fs input_dir with
        | [] =>
            (Returned empty_report, w0,
             [EvInit input_dir (Returned tt);
              EvLog WARNING (MsgNoSupported input_dir)])
        | found =>
            match loop env input_dir output_dir (length found) 1 found
                    empty_report w0 with
            | (Returned r, w1, t1) =>
                (Returned r, w1,
                 [EvInit input_dir (Returned tt);
                  EvLog INFO (MsgFound (length found))] ++ t1 ++
                 [EvLog INFO MsgRule;
                  EvLog INFO (MsgComplete (processed r) (errors r))])
            | (Raised e, w1, t1) =>
                (Raised e, w1,
                 [EvInit input_dir (Returned tt);
                  EvLog INFO (MsgFound (length found))] ++ t1)
            end
        end
    end.
Proof.
  unfold extract_directory, bind, TextExtractor, log, emit, call, ret.
  destruct (env_init env input_dir w) as [[[]|e0] w0]; [|done].
  destruct (supported_files fs input_dir) as [|p found]; [done|].
  by destruct (loop env _ _ _ _ _ _ _) as [[[r|e] w1] t1].
Qed.

(** X6: a batch that returns a report has worked through the candidates
    strictly one after the other: after building the extractor, and for
    each candidate in turn, it extracted it and then, if there was a text
    to save, created the parent directory and wrote the file, before it
    went on to the next candidate; it made no other call. *)
Theorem batch_calls_in_order {W} (env : Env W) fs input_dir output_dir w r :
  outcome (extract_directory env fs input_dir output_dir w) = Returned r ->
  calls (trace (extract_directory env fs input_dir output_dir w))
  = EvInit input_dir (Returned tt) ::
    List.flat_map (calls_of input_dir output_dir)
      (extract_results (trace (extract_directory env fs input_dir output_dir w))).
Proof.
  rewrite extract_directory_run. unfold outcome, trace.
  destruct (env_init env input_dir w) as [[[]|e0] w0]; [|discriminate].
  pose proof (loop_calls env input_dir output_dir
                (length (supported_files fs input_dir)) _
                (supported_files_below fs input_dir) 1%nat empty_report w0) as Hl.
  destruct (supported_files fs input_dir) as [|p found]; [done|].
  destruct (loop env _ _ _ _ _ _ _) as [[[r1|e] w1] t1]; [|discriminate].
  intros _. cbn [fst snd].
  rewrite !calls_app, !extract_results_app. simpl.
  rewrite !app_nil_r. f_equal. by apply (Hl r1 w1 t1).
Qed.

Lemma batch_calls_in_order_witness :
  calls (trace (extract_directory Sample.env Sample.tree ["docs"] (Some ["out"]) tt))
  = [EvInit ["docs"] (Returned tt);
     EvExtract ["docs"; "a.pdf"] (Returned (Sample.ok_dict "Hello world" 11 2));
     EvMkdir ["out"] (Returned tt);
     EvWrite ["out"; "a.txt"] (VStr "Hello world") (Returned tt);
     EvExtract ["docs"; "c.xlsx"] (Returned (Sample.err_dict "corrupt archive"));
     EvExtract ["docs"; "sub"; "d.DOCX"] (Returned (Sample.ok_dict "Deep" 4 1));
     EvMkdir ["out"; "sub"] (Returned tt);
     EvWrite ["out"; "sub"; "d.txt"] (VStr "Deep") (Returned tt)].
Proof.
  rewrite (batch_calls_in_order Sample.env Sample.tree ["docs"] (Some ["out"]) tt
             {| processed := 2; errors := 1;
                files := List.map record_of
                  (extract_results (trace (extract_directory Sample.env
                     Sample.tree ["docs"] (Some ["out"]) tt))) |}
             ltac:(vm_compute; reflexivity)).
  vm_compute. reflexivity.
Defined.

(** ** The report and its records *)

Lemma succeeded_record_of (pd : Path * Dict) :
  succeeded (record_of pd) = negb (failed (snd pd)).
Proof.
  destruct (record_of_matches pd) as (_ & (b & Hb & Hiff) & _).
  unfold succeeded. rewrite Hb.
  destruct (failed (snd pd)), b; simpl; try done.
  - by specialize (proj1 Hiff eq_refl).
  - by specialize (proj2 Hiff eq_refl).
Qed.

Lemma filter_length_zero {A} (f : A -> bool) (l : list A) :
  length (List.filter f l) = 0%nat <-> Forall (fun x => f x = false) l.
Proof.
  induction l as [|x l IH]; simpl.
  - split; [constructor | done].
  - destruct (f x) eqn:Hx; simpl.
    + split; [done|]. intros H. inversion H; congruence.
    + rewrite IH. split; [by constructor | by inversion 1].
Qed.

Lemma filter_record_of (g : bool -> bool) (ds : list (Path * Dict)) :
  List.filter (fun fr => g (succeeded fr)) (List.map record_of ds)
  = List.map record_of (List.filter (fun pd => g (negb (failed (snd pd)))) ds).
Proof.
  induction ds as [|pd ds IH]; [done|]. simpl.
  rewrite succeeded_record_of.
  destruct (g (negb (failed (snd pd)))); simpl; by rewrite IH.
Qed.

(** X7: in the report of a batch, [processed] is the number of records
    whose success flag is true and [errors] the number of the others; so
    the report counts no error exactly when every record is flagged as a
    success. *)
Theorem counters_count_flags {W} (env : Env W) fs input_dir output_dir w r :
  outcome (extract_directory env fs input_dir output_dir w) = Returned r ->
  processed r = Z.of_nat (length (List.filter succeeded (files r))) /\
  errors r = Z.of_nat (length (List.filter (fun fr => negb (succeeded fr)) (files r))) /\
  (errors r = 0 <-> Forall (fun fr => succeeded fr = true) (files r)).
Proof.
  intros Hrun.
  destruct (extract_directory env fs input_dir output_dir w)
    as [[o w'] tr] eqn:Hdir. unfold outcome in Hrun. simpl in Hrun. subst o.
  apply extract_directory_returned in Hdir as (_ & _ & Hp & He & Hf & _).
  pose proof (fun g => filter_record_of g (extract_results tr)) as Hs.
  rewrite <- Hf in Hs.
  assert (Hp' : processed r = Z.of_nat (length (List.filter succeeded (files r)))).
  { rewrite (List.filter_ext succeeded (fun fr => id (succeeded fr))) by done.
    rewrite (Hs id), length_map, Hp. done. }
  assert (He' : errors r
                = Z.of_nat (length (List.filter (fun fr => negb (succeeded fr)) (files r)))).
  { rewrite (Hs negb), length_map, He. unfold failures. do 2 f_equal.
    apply List.filter_ext. intros pd. by rewrite negb_involutive. }
  split_and!; [exact Hp' | exact He' |].
  rewrite He'. change 0 with (Z.of_nat 0). rewrite Nat2Z.inj_iff.
  rewrite filter_length_zero. apply Forall_iff. intros fr.
  by destruct (succeeded fr).
Qed.

Lemma counters_count_flags_witness :
  2 = Z.of_nat (length (List.filter succeeded
        (List.map record_of
           (extract_results (trace (extract_directory Sample.env Sample.tree
                                      ["docs"] None tt)))))).
Proof.
  apply (proj1 (counters_count_flags Sample.env Sample.tree ["docs"] None tt
           {| processed := 2; errors := 1;
              files := List.map record_of
                (extract_results (trace (extract_directory Sample.env
                   Sample.tree ["docs"] None tt))) |}
           ltac:(vm_compute; reflexivity))).
Defined.

Lemma dom_record_of (pd : Path * Dict) :
  dom (record_of pd)
  = if failed (snd pd)
    then ({[ "file"; "success"; "chars"; "words"; "error" ]} : gset string)
    else {[ "file"; "success"; "chars"; "words" ]}.
Proof.
  unfold record_of, file_result_of.
  destruct (failed (snd pd)); rewrite ?dom_insert_L, ?dom_singleton_L; set_solver.
Qed.

(** X8: a file record of a batch report has the keys [file], [success],
    [chars] and [words], the key [error] as well exactly when it is not
    flagged as a success, and no other key: the extracted text is never
    copied into the report. *)
Theorem record_keys {W} (env : Env W) fs input_dir output_dir w r :
  outcome (extract_directory env fs input_dir output_dir w) = Returned r ->
  Forall (fun fr =>
            dom fr
            = if succeeded fr
              then ({[ "file"; "success"; "chars"; "words" ]} : gset string)
              else {[ "file"; "success"; "chars"; "words"; "error" ]})
         (files r).
Proof.
  intros Hrun.
  destruct (extract_directory env fs input_dir output_dir w)
    as [[o w'] tr] eqn:Hdir. unfold outcome in Hrun. simpl in Hrun. subst o.
  apply extract_directory_returned in Hdir as (_ & _ & _ & _ & -> & _).
  apply List.Forall_forall. intros fr (pd & <- & _)%in_map_iff.
  rewrite succeeded_record_of, dom_record_of. by destruct (failed (snd pd)).
Qed.

Lemma record_keys_witness :
  Forall (fun fr =>
            dom fr
            = if succeeded fr
              then ({[ "file"; "success"; "chars"; "words" ]} : gset string)
              else {[ "file"; "success"; "chars"; "words"; "error" ]})
         (List.map record_of
            (extract_results (trace (extract_directory Sample.env Sample.tree
                                       ["docs"] None tt)))).
Proof.
  apply (record_keys Sample.env Sample.tree ["docs"] None tt
           {| processed := 2; errors := 1;
              files := List.map record_of
                (extract_results (trace (extract_directory Sample.env
                   Sample.tree ["docs"] None tt))) |}).
  vm_compute. reflexivity.
Defined.

(** ** What the walk finds *)

Lemma resolve_app (a b : Path) :
  forall n, resolve n (a ++ b) = match resolve n a with
                                 | Some m => resolve m b
                                 | None => None
                                 end.
Proof.
  induction a as [|s a IH]; intros n; [done|]. simpl.
  destruct n as [| |entries]; try done.
  destruct (find_entry s entries) as [c|]; [apply IH | done].
Qed.

Lemma find_entry_In nm entries c :
  find_entry nm entries = Some c -> In (nm, c) entries.
Proof.
  induction entries as [|[n c'] entries IH]; simpl; [done|].
  destruct (String.eqb_spec n nm) as [->|Hne].
  - intros [= ->]. by left.
  - intros H. right. by apply IH.
Qed.

Lemma find_entry_NoDup nm entries c :
  NoDup (List.map fst entries) -> In (nm, c) entries ->
  find_entry nm entries = Some c.
Proof.
  induction entries as [|[n c'] entries IH]; simpl; [done|].
  intros [Hn Hnd]%NoDup_cons [[= -> ->] | Hin].
  - by rewrite String.eqb_refl.
  - destruct (String.eqb_spec n nm) as [->|Hne]; [|by apply IH].
    destruct Hn. apply list_elem_of_In, in_map_iff. by exists (nm, c).
Qed.

Lemma distinct_names_Dir entries :
  distinct_names (Dir entries) ->
  NoDup (List.map fst entries) /\
  Forall (fun e => distinct_names (snd e)) entries.
Proof.
  simpl. intros [Hnd Hall]. split; [done|]. clear Hnd.
  induction entries as [|e entries IH]; [constructor|].
  simpl in Hall. destruct Hall as [He Hall]. constructor; [done | by apply IH].
Qed.

Lemma distinct_names_resolve (p : Path) :
  forall n m, distinct_names n -> resolve n p = Some m -> distinct_names m.
Proof.
  induction p as [|s p IH]; intros n m Hn; simpl.
  - by intros [= <-].
  - destruct n as [| |entries]; try done.
    destruct (find_entry s entries) as [c|] eqn:Hfind; [|done].
    apply find_entry_In in Hfind.
    apply distinct_names_Dir in Hn as [_ Hall].
    rewrite Forall_forall in Hall. apply list_elem_of_In in Hfind.
    apply IH. by apply (Hall _ Hfind).
Qed.

(** In a tree with distinct names, every path the walk yields exists. *)
Lemma rglob_from_sound (n : Node) :
  distinct_names n ->
  forall here p, In p (rglob_from here n) ->
    exists rel c, p = here ++ rel /\ resolve n rel = Some c.
Proof.
  induction n as [| |entries IH] using Node_nested_ind; intros Hd here p; simpl;
    [done..|].
  apply distinct_names_Dir in Hd as [Hnd Hall].
  rewrite in_app_iff, in_map_iff, in_flat_map.
  intros [([nm c] & <- & Hin) | ([nm c] & Hin & Hp)].
  - exists [nm], c. split; [done|]. simpl.
    by rewrite (find_entry_NoDup nm entries c Hnd Hin).
  - rewrite Forall_forall in IH, Hall.
    pose proof Hin as Hin'. apply list_elem_of_In in Hin'.
    destruct (IH _ Hin' (Hall _ Hin') _ _ Hp) as (rel & c' & -> & Hres).
    exists (nm :: rel), c'. split; [by rewrite <- app_assoc|]. simpl.
    by rewrite (find_entry_NoDup nm entries c Hnd Hin).
Qed.

Lemma rglob_from_under (n : Node) (here p : Path) (nm : string) :
  In p (rglob_from (here ++ [nm]) n) -> exists t, p = here ++ nm :: t /\ t <> [].
Proof.
  intros (segs & x & ->)%rglob_from_below.
  exists (segs ++ [x]). split; [by rewrite <- app_assoc|].
  by destruct segs.
Qed.

Lemma rglob_subtrees_NoDup (here : Path) (entries : list (string * Node)) :
  NoDup (List.map fst entries) ->
  Forall (fun e => forall here', NoDup (rglob_from here' (snd e))) entries ->
  NoDup (List.flat_map (fun '(nm, c) => rglob_from (here ++ [nm]) c) entries).
Proof.
  induction entries as [|[nm c] entries IH]; simpl; [constructor|].
  intros [Hnm Hnd]%NoDup_cons Hall. apply Forall_cons in Hall as [Hc Hall].
  apply NoDup_app. split_and!.
  - apply Hc.
  - intros p Hp%list_elem_of_In Hq%list_elem_of_In.
    apply rglob_from_under in Hp as (t & -> & _).
    apply in_flat_map in Hq as ([nm' c'] & Hin & Hq).
    apply rglob_from_under in Hq as (t' & Heq & _).
    apply app_inv_head in Heq. injection Heq as -> _.
    apply Hnm, list_elem_of_In, in_map_iff. by exists (nm', c').
  - by apply IH.
Qed.

(** In a tree with distinct names, the walk yields no path twice. *)
Lemma rglob_from_NoDup (n : Node) :
  distinct_names n -> forall here, NoDup (rglob_from here n).
Proof.
  induction n as [| |entries IH] using Node_nested_ind; intros Hd here; simpl;
    [constructor..|].
  apply distinct_names_Dir in Hd as [Hnd Hall].
  apply NoDup_app. split_and!.
  - clear IH Hall. induction entries as [|[nm c] entries IHe]; simpl; [constructor|].
    apply NoDup_cons in Hnd as [Hnm Hnd]. apply NoDup_cons. split; [|by apply IHe].
    intros (e & Heq & Hin)%list_elem_of_In%in_map_iff.
    apply app_inv_head in Heq. injection Heq as Heq.
    apply Hnm, list_elem_of_In, in_map_iff. by exists e.
  - intros p (e & <- & _)%list_elem_of_In%in_map_iff Hq%list_elem_of_In.
    apply in_flat_map in Hq as ([nm' c'] & _ & Hq).
    apply rglob_from_under in Hq as (t & Heq & Ht).
    apply app_inv_head in Heq. injection Heq as _ <-. done.
  - apply rglob_subtrees_NoDup; [done|].
    rewrite Forall_forall in IH, Hall |- *. intros e He here'.
    by apply IH, Hall.
Qed.

Lemma NoDup_List_filter {A} (f : A -> bool) (l : list A) :
  NoDup l -> NoDup (List.filter f l).
Proof.
  induction 1 as [|x l Hx Hl IH]; simpl; [constructor|].
  destruct (f x); [|done]. constructor; [|done].
  intros [Hin _]%list_elem_of_In%filter_In. by apply Hx, list_elem_of_In.
Qed.

(** X10: over a tree in which no directory lists a name twice, [extract_text]
    is never called twice on the same path, and every path it is called on
    exists in the tree, however the run ends. *)
Theorem each_candidate_extracted_once {W} (env : Env W) fs input_dir output_dir w :
  distinct_names fs ->
  NoDup (extract_calls (trace (extract_directory env fs input_dir output_dir w))) /\
  Forall (fun p => path_exists fs p = true)
         (extract_calls (trace (extract_directory env fs input_dir output_dir w))).
Proof.
  intros Hd.
  pose proof (extract_directory_calls_prefix env fs input_dir output_dir w)
    as [rest Hpre].
  assert (Hnd : NoDup (supported_files fs input_dir)).
  { unfold supported_files, rglob.
    destruct (resolve fs input_dir) as [n|] eqn:Hres; [|constructor].
    apply NoDup_List_filter, rglob_from_NoDup.
    by apply (distinct_names_resolve input_dir fs n). }
  assert (Hex : Forall (fun p => path_exists fs p = true) (supported_files fs input_dir)).
  { apply List.Forall_forall. intros p [Hin _]%filter_In.
    unfold rglob, path_exists in *.
    destruct (resolve fs input_dir) as [n|] eqn:Hres; [|done].
    apply rglob_from_sound in Hin as (rel & c & -> & Hrel);
      [|by apply (distinct_names_resolve input_dir fs n)].
    by rewrite resolve_app, Hres, Hrel. }
  rewrite Hpre in Hnd, Hex. split.
  - by apply NoDup_app in Hnd as (? & _).
  - by apply Forall_app in Hex as [? _].
Qed.

Lemma each_candidate_extracted_once_witness :
  NoDup (extract_calls (trace (extract_directory Sample.env Sample.tree ["docs"]
                                 None tt))).
Proof.
  apply (proj1 (each_candidate_extracted_once Sample.env Sample.tree ["docs"] None tt
                  ltac:(vm_compute; repeat (split || constructor);
                        rewrite ?list_elem_of_In; simpl; intuition discriminate))).
Defined.

(** ** The files a batch writes *)

Section WrittenFiles.

Context {W : Type} (env : Env W).



End WrittenFiles.


(** ** Output names *)

Lemma length_append (s t : string) :
  String.length (s +:+ t) = (String.length s + String.length t)%nat.
Proof.
  induction s as [|a s IH]; [done|]. rewrite append_cons. simpl. by rewrite IH.
Qed.

Lemma rfind_append (c : ascii) (s t : string) (j : nat) :
  rfind c t = Some j -> rfind c (s +:+ t) = Some (String.length s + j)%nat.
Proof.
  intros Ht. induction s as [|a s IH]; [done|].
  rewrite append_cons. simpl. by rewrite IH.
Qed.

Lemma substring_append_r (s t : string) (n : nat) :
  substring (String.length s) n (s +:+ t) = substring 0 n t.
Proof. induction s as [|a s IH]; [done|]. rewrite append_cons. simpl. exact IH. Qed.

(** The suffix of a name that ends in [.txt] is [.txt], or nothing when the
    name is [.txt] itself. *)
Lemma name_suffix_txt (s : string) :
  name_suffix (s +:+ ".txt") = if String.eqb s "" then "" else ".txt".
Proof.
  unfold name_suffix.
  rewrite (rfind_append "." s ".txt" 0 eq_refl), Nat.add_0_r, length_append.
  destruct s as [|a s]; [done|].
  replace ((0 <? String.length (String a s))%nat) with true by done.
  replace ((String.length (String a s) <? String.length (String a s) + String.length ".txt" - 1)%nat)
    with true by (symmetry; apply Nat.ltb_lt; simpl; lia).
  cbn [andb String.eqb].
  replace (String.length (String a s) + String.length ".txt" - String.length (String a s))%nat
    with 4%nat by (simpl; lia).
  by rewrite substring_append_r.
Qed.

Lemma txt_not_supported (p : Path) (s : string) :
  name p = s +:+ ".txt" -> is_supported p = false.
Proof.
  intros Hn. unfold is_supported, suffix. rewrite Hn, name_suffix_txt.
  by destruct (String.eqb s "").
Qed.

Lemma mirrored_name (input_dir out_dir p : Path) :
  name (mirrored input_dir out_dir p) = stem (name p) +:+ ".txt".
Proof. unfold mirrored. by rewrite app_assoc, name_snoc. Qed.

(** A write whose destination has a name ending in [.txt], which the
    filter of the walk rejects. *)
Lemma mirrored_is_txt (input_dir out_dir p : Path) (data : PyVal) :
  let wr := (mirrored input_dir out_dir p, data) in
  is_supported (fst wr) = false /\ exists s, name (fst wr) = s +:+ ".txt".
Proof.
  simpl. split.
  - apply (txt_not_supported _ (stem (name p))), mirrored_name.
  - exists (stem (name p)). apply mirrored_name.
Qed.

Section WriteTargets.

Context {W : Type} (env : Env W).

Lemma loop_body_write_targets input_dir output_dir total results idx p w :
  below input_dir p ->
  Forall (fun wr => is_supported (fst wr) = false /\
                    exists s, name (fst wr) = s +:+ ".txt")
         (write_calls (trace (loop_body env input_dir output_dir total results idx p w))).
Proof.
  intros Hb. unfold trace.
  unfold loop_body, bind, log, emit, extract_text, mkdir, write_text, call,
    lift, ret.
  destruct (env_extract env p w) as [[d|e0] w1]; [|constructor].
  destruct (truthy (dict_get d "error")) eqn:Herr.
  { rewrite truthy_get_index by done. constructor. }
  destruct output_dir as [out_dir|]; [|constructor].
  destruct (truthy (dict_get d "text")) eqn:Htext; [|constructor].
  rewrite truthy_get_index by done.
  destruct (below_paths input_dir out_dir p Hb) as (rel & q & -> & -> & Hm).
  destruct (env_mkdir env _ w1) as [[[]|e3] w2]; [|constructor].
  destruct (dict_get d "text") as [| b | z | s] eqn:Ht;
    try destruct (env_write env _ _ w2) as [[[]|e4] w3];
    simpl; rewrite Hm; (constructor; [apply mirrored_is_txt | constructor]).
Qed.

Lemma loop_write_targets input_dir output_dir total todo :
  Forall (below input_dir) todo ->
  forall idx results w,
    Forall (fun wr => is_supported (fst wr) = false /\
                      exists s, name (fst wr) = s +:+ ".txt")
           (write_calls (trace (loop env input_dir output_dir total idx todo results w))).
Proof.
  induction 1 as [|p todo Hp _ IH]; intros idx results w; [constructor|].
  simpl. unfold bind.
  pose proof (loop_body_write_targets input_dir output_dir total results idx p w Hp)
    as Hbody.
  destruct (loop_body env input_dir output_dir total results idx p w)
    as [[[r1|e1] w1] t1]; unfold trace in *; cbn [snd] in *; [|done].
  specialize (IH (S idx) r1 w1).
  destruct (loop env input_dir output_dir total (S idx) todo r1 w1)
    as [[o2 w2] t2]. cbn [snd] in *.
  rewrite write_calls_app. by apply Forall_app.
Qed.

End WriteTargets.

(** X12: a batch never writes a file under a name that the filter of the
    walk accepts.  Every destination it passes to [write_text], whether the
    write succeeds or not, has a name ending in [.txt], which is not a
    supported suffix.  (This is about the files written; the directories
    created for them keep the names of the input directories.) *)
Theorem outputs_are_not_candidates {W} (env : Env W) fs input_dir output_dir w :
  Forall (fun wr => is_supported (fst wr) = false /\
                    exists s, name (fst wr) = s +:+ ".txt")
         (write_calls (trace (extract_directory env fs input_dir output_dir w))).
Proof.
  pose proof (supported_files_below fs input_dir) as Hb.
  rewrite extract_directory_run.
  destruct (env_init env input_dir w) as [[[]|e0] w0]; [|constructor].
  destruct (supported_files fs input_dir) as [|p found]; [constructor|].
  cbv beta iota zeta.
  pose proof (loop_write_targets env input_dir output_dir
                (length (p :: found)) (p :: found) Hb 1%nat empty_report w0) as Hl.
  destruct (loop env input_dir output_dir (length (p :: found)) 1 (p :: found)
              empty_report w0) as [[[r1|e] w1] t1];
    unfold trace in *; cbn [snd] in *; simpl;
    rewrite ?write_calls_app; simpl; rewrite ?app_nil_r; done.
Qed.

(** ** Which names are candidates *)

Lemma lower_ascii_dot (c : ascii) : Ascii.eqb (lower_ascii c) "." = Ascii.eqb c ".".
Proof. destruct c as [[] [] [] [] [] [] [] []]; reflexivity. Qed.

Lemma rfind_dot_lower (s : string) : rfind "." (lower s) = rfind "." s.
Proof.
  induction s as [|a s IH]; [done|]. simpl. by rewrite IH, lower_ascii_dot.
Qed.

Lemma length_lower (s : string) : String.length (lower s) = String.length s.
Proof. induction s as [|a s IH]; [done|]. simpl. by rewrite IH. Qed.

(** A supported suffix, in whatever letter case, is a dot followed by at
    least one character, none of which is a dot. *)
Lemma supported_suffix_shape (ext : string) :
  lower ext ∈ supported_extensions ->
  rfind "." ext = Some 0%nat /\ (2 <= String.length ext)%nat.
Proof.
  intros Hin. rewrite <- rfind_dot_lower, <- length_lower.
  unfold supported_extensions in Hin.
  rewrite !elem_of_union, !elem_of_singleton in Hin.
  destruct Hin as [[[[[[[-> | ->] | ->] | ->] | ->] | ->] | ->] | ->];
    (split; [reflexivity | simpl; lia]).
Qed.

(** The suffix of a stem followed by a dot-initial extension without
    further dots is that extension, provided the stem is not empty. *)
Lemma name_suffix_append (s ext : string) :
  rfind "." ext = Some 0%nat -> (2 <= String.length ext)%nat -> s <> "" ->
  name_suffix (s +:+ ext) = ext.
Proof.
  intros Hr Hlen Hs. unfold name_suffix.
  rewrite (rfind_append "." s ext 0 Hr), Nat.add_0_r, length_append.
  assert (Hpos : (0 < String.length s)%nat) by (destruct s; [done | simpl; lia]).
  replace ((0 <? String.length s)%nat) with true
    by (symmetry; by apply Nat.ltb_lt).
  replace ((String.length s <? String.length s + String.length ext - 1)%nat)
    with true by (symmetry; apply Nat.ltb_lt; lia).
  cbn [andb].
  replace (String.length s + String.length ext - String.length s)%nat
    with (String.length ext) by lia.
  by rewrite substring_append_r, substring_all.
Qed.

Lemma stem_nonempty (nm : string) : name_suffix nm <> "" -> stem nm <> "".
Proof.
  unfold stem, name_suffix.
  destruct (rfind "." nm) as [i|] eqn:Hr; [|done].
  apply rfind_lt in Hr.
  destruct ((0 <? i)%nat && (i <? String.length nm - 1)%nat) eqn:Hc; [|done].
  apply andb_true_iff in Hc as [Hi%Nat.ltb_lt _]. intros _.
  rewrite substring_length by lia.
  replace (String.length nm - (String.length nm - i))%nat with i by lia.
  intros Hempty.
  pose proof (substring_length nm 0 i ltac:(lia)) as Hl. rewrite Hempty in Hl.
  simpl in Hl. lia.
Qed.

(** X13: the filter of the walk looks at the last suffix of the name only,
    without regard to letter case.  A path is a candidate exactly when its
    name is a non-empty stem followed by a supported extension in any
    letter case: so [Report.PDF] and [archive.tar.zip] are candidates,
    while a name that is nothing but an extension, such as [.pdf], is not. *)
Theorem candidate_names (p : Path) :
  is_supported p = true <->
  exists s ext, name p = s +:+ ext /\ s <> "" /\ lower ext ∈ supported_extensions.
Proof.
  split.
  - intros Hsup. exists (stem (name p)), (name_suffix (name p)).
    split_and!.
    + by rewrite stem_suffix.
    + apply stem_nonempty. by apply supported_suffix_nonempty in Hsup.
    + unfold is_supported, suffix in Hsup. by apply bool_decide_eq_true in Hsup.
  - intros (s & ext & Hn & Hs & Hin).
    destruct (supported_suffix_shape ext Hin) as [Hr Hlen].
    unfold is_supported, suffix. rewrite Hn, (name_suffix_append s ext Hr Hlen Hs).
    by apply bool_decide_eq_true.
Qed.

Lemma candidate_names_witness :
  is_supported ["docs"; "archive.tar.ZIP"] = true /\
  exists s ext, name ["docs"; "Report.PDF"] = s +:+ ext /\ s <> "" /\
                lower ext ∈ supported_extensions.
Proof.
  split.
  - apply (proj2 (candidate_names ["docs"; "archive.tar.ZIP"])).
    exists "archive.tar", ".ZIP". split_and!; [reflexivity | discriminate |].
    vm_compute. reflexivity.
  - apply (proj1 (candidate_names ["docs"; "Report.PDF"])).
    vm_compute. reflexivity.
Defined.

Lemma append_inv_r (t : string) :
  forall s1 s2, s1 +:+ t = s2 +:+ t -> s1 = s2.
Proof.
  assert (Hno : forall a s, t <> String a (s +:+ t)).
  { intros a s Heq. apply (f_equal String.length) in Heq.
    simpl in Heq. rewrite length_append in Heq. lia. }
  induction s1 as [|a s1 IH]; intros [|b s2]; rewrite ?append_cons, ?append_nil.
  - done.
  - intros Heq. by destruct (Hno b s2).
  - intros Heq. by destruct (Hno a s1).
  - intros [= -> Heq]. by rewrite (IH s2 Heq).
Qed.

(** X14: two candidates are written to the same output file exactly when
    they lie in the same directory and their names differ in the suffix
    only: [a.pdf] and [a.docx] side by side both go to [a.txt], the later
    write replacing the earlier one, while candidates in different
    directories or with different stems never share an output. *)
Theorem output_collisions (input_dir out_dir segs1 segs2 : Path) (nm1 nm2 : string) :
  name_suffix nm1 <> "" -> name_suffix nm2 <> "" ->
  output_file_of input_dir out_dir (input_dir ++ segs1 ++ [nm1])
  = output_file_of input_dir out_dir (input_dir ++ segs2 ++ [nm2])
  <-> segs1 = segs2 /\ stem nm1 = stem nm2.
Proof.
  intros H1 H2.
  rewrite !output_file_of_below by (by eexists _, _).
  rewrite !mirrored_below. split.
  - intros [= Heq]. apply app_inv_head in Heq.
    apply app_inj_tail in Heq as [-> Heq]. split; [done|].
    by apply append_inv_r in Heq.
  - by intros [-> ->].
Qed.

Lemma output_collisions_witness :
  output_file_of ["docs"] ["out"] (["docs"] ++ ["sub"] ++ ["a.pdf"])
  = output_file_of ["docs"] ["out"] (["docs"] ++ ["sub"] ++ ["a.docx"]).
Proof.
  apply (proj2 (output_collisions ["docs"] ["out"] ["sub"] ["sub"] "a.pdf" "a.docx"
                  ltac:(discriminate) ltac:(discriminate))).
  split; reflexivity.
Defined.

(** ** What a batch logs *)

Section BatchLog.

Context {W : Type} (env : Env W).

Lemma loop_body_progress input_dir output_dir total results idx p w :
  List.filter is_progress
    (logged (trace (loop_body env input_dir output_dir total results idx p w)))
  = [(INFO, MsgProcessing idx total (name p))].
Proof. unfold trace. body_cases; done. Qed.

Lemma loop_progress input_dir output_dir total todo :
  forall idx results w r w' tr,
    loop env input_dir output_dir total idx todo results w = (Returned r, w', tr) ->
    List.map snd (List.filter is_progress (logged tr)) = progress total idx todo.
Proof.
  induction todo as [|p todo IH]; intros idx results w r w' tr; simpl.
  { unfold ret. by intros [= <- <- <-]. }
  unfold bind.
  pose proof (loop_body_progress input_dir output_dir total results idx p w) as Hp.
  destruct (loop_body env input_dir output_dir total results idx p w)
    as [[[r1|e1] w1] t1]; [|discriminate].
  destruct (loop env input_dir output_dir total (S idx) todo r1 w1)
    as [[o2 w2] t2] eqn:Hloop.
  intros [= -> <- <-]. apply IH in Hloop.
  unfold trace in Hp. cbn [snd] in Hp.
  rewrite logged_app, List.filter_app, List.map_app, Hp, Hloop. done.
Qed.

End BatchLog.

(** X15: what a batch that returns a report has logged.  Without
    candidates it is the one warning.  Otherwise the log opens with the
    number of candidates found, numbers the candidates [1/n] to [n/n] in
    walk order with their names, and closes with a rule and a summary
    whose two counts are those of the report returned. *)
Theorem batch_log {W} (env : Env W) fs input_dir output_dir w r :
  outcome (extract_directory env fs input_dir output_dir w) = Returned r ->
  match supported_files fs input_dir with
  | [] =>
      logged (trace (extract_directory env fs input_dir output_dir w))
      = [(WARNING, MsgNoSupported input_dir)]
  | found =>
      exists mid,
        logged (trace (extract_directory env fs input_dir output_dir w))
        = (INFO, MsgFound (length found)) :: mid ++
          [(INFO, MsgRule); (INFO, MsgComplete (processed r) (errors r))] /\
        List.map snd (List.filter is_progress mid)
        = progress (length found) 1 found
  end.
Proof.
  rewrite extract_directory_run. unfold outcome, trace.
  destruct (env_init env input_dir w) as [[[]|e0] w0]; [|discriminate].
  destruct (supported_files fs input_dir) as [|p found]; [done|].
  cbv beta iota zeta.
  destruct (loop env input_dir output_dir (length (p :: found)) 1 (p :: found)
              empty_report w0) as [[[r1|e] w1] t1] eqn:Hloop; [|discriminate].
  cbn [fst snd]. intros [= <-]. exists (logged t1). split.
  - simpl. by rewrite logged_app.
  - by apply loop_progress in Hloop.
Qed.

Lemma batch_log_witness :
  exists mid,
    logged (trace (extract_directory Sample.env Sample.tree ["docs"] None tt))
    = (INFO, MsgFound 3) :: mid ++ [(INFO, MsgRule); (INFO, MsgComplete 2 1)] /\
    List.map snd (List.filter is_progress mid)
    = [MsgProcessing 1 3 "a.pdf"; MsgProcessing 2 3 "c.xlsx";
       MsgProcessing 3 3 "d.DOCX"].
Proof.
  apply (batch_log Sample.env Sample.tree ["docs"] None tt
           {| processed := 2; errors := 1;
              files := List.map record_of
                (extract_results (trace (extract_directory Sample.env
                   Sample.tree ["docs"] None tt))) |}).
  vm_compute. reflexivity.
Defined.

(** X16: the calls of a run of the single-item pipeline that returns a
    result [d], in order: the extractor is built on the directory of the
    file, the file is extracted, and, when an output path is given and [d]
    reports no error and has a non-empty text, the parent of the output
    path is created and then the text is written to the output path
    itself; there is no other call. *)
Theorem single_file_calls_in_order {W} (env : Env W) (p : Path)
    (out : option Path) (w : W) (d : Dict) :
  outcome (extract_single_file env p out w) = Returned d ->
  calls (trace (extract_single_file env p out w))
  = [EvInit (parent p) (Returned tt); EvExtract p (Returned d)] ++
    match out with
    | Some o =>
        if saves d
        then [EvMkdir (parent o) (Returned tt);
              EvWrite o (dict_get d "text") (Returned tt)]
        else []
    | None => []
    end.
Proof.
  unfold extract_single_file, bind, TextExtractor, extract_text, mkdir,
    write_text, log, emit, call, lift, ret, outcome, trace, saves, failed.
  destruct (env_init env (parent p) w) as [[[]|e0] w0]; [|discriminate].
  destruct (env_extract env p w0) as [[d'|e1] w1]; [|discriminate].
  destruct (truthy (dict_get d' "error")) eqn:Herr.
  { rewrite truthy_get_index by done. intros [= <-]. rewrite Herr.
    by destruct out. }
  destruct out as [out|].
  2:{ by intros [= <-]. }
  destruct (truthy (dict_get d' "text")) eqn:Htext.
  2:{ intros [= <-]. by rewrite Herr, Htext. }
  rewrite truthy_get_index by done.
  destruct (env_mkdir env (parent out) w1) as [[[]|e3] w2]; [|discriminate].
  destruct (dict_get d' "text") as [| b | z | s] eqn:Ht;
    try destruct (env_write env out _ w2) as [[[]|e4] w3];
    try discriminate.
  intros [= <-]. by rewrite Herr, Ht, Htext.
Qed.

Lemma single_file_calls_in_order_witness :
  calls (trace (extract_single_file Sample.env ["report.docx"]
                  (Some ["out"; "report.txt"]) tt))
  = [EvInit [] (Returned tt);
     EvExtract ["report.docx"] (Returned (Sample.ok_dict "Q1 results" 10 2));
     EvMkdir ["out"] (Returned tt);
     EvWrite ["out"; "report.txt"] (VStr "Q1 results") (Returned tt)].
Proof.
  rewrite (single_file_calls_in_order Sample.env ["report.docx"]
             (Some ["out"; "report.txt"]) tt (Sample.ok_dict "Q1 results" 10 2)
             ltac:(vm_compute; reflexivity)).
  vm_compute. reflexivity.
Defined.
